(** * Sentiment pipeline of [app.py]: classifier, aggregator, reporter

    A shallow embedding of the data-frame code of [src/app.py], and the
    properties of its three stages.

    - A data frame is the list of its rows, in index order; a row is a
      record of the columns the program reads or writes.  A missing cell
      (pandas [NaN], an empty cell of the uploaded CSV) is [None].  The
      text column holds strings.
    - The pandas operations are modelled with the defaults the program
      leaves in force: [groupby] with [sort=True] and [dropna=True],
      [mean] with [NaN] skipped, [merge] with [how='inner'], [nlargest]
      and [nsmallest] with [keep='first'].
    - Strings are byte strings (UTF-8); [String.compare] is the byte-wise
      lexicographic order, which on UTF-8 coincides with Python's
      code-point order on [str].
    - Numbers are rationals ([Q]).  The aggregator's group mean is the
      exact quotient of the sum of the scores by their count; the column
      of the program holds the double nearest to it ([round64]).  The
      reporter, which takes means of that column, computes on these
      doubles as pandas does: every addition and the final division
      rounded to binary64 ([fmean]).  The exponent range of binary64 is
      taken unbounded; the numbers the program forms are far from its
      ends.
    - Python objects that are mutated in place live in a store
      ([gmap loc frame]); a function that receives a frame receives its
      location.
    - The vectorizer, the model and the completion service are parameters:
      functions that return a value or raise. *)

From stdpp Require Import base option gmap.
From Stdlib Require Import String Ascii DecimalString ZArith QArith Lia
  Bool List Permutation Sorted Orders OrdersEx.
Import ListNotations.

Close Scope Q_scope.
Open Scope string_scope.

(** ** Errors

    Python exceptions, as values.  [ExternalError] stands for whatever the
    vectorizer, the model or the completion service raise. *)

Inductive exn : Type :=
| KeyError (what : string)
| ValueError (what : string)
| IndexError (what : string)
| ExternalError (what : string).

Definition result (A : Type) : Type := exn + A.

Definition ret {A} (a : A) : result A := inr a.
Definition raise {A} (e : exn) : result A := inl e.
Definition bind {A B} (m : result A) (k : A -> result B) : result B :=
  match m with
  | inl e => inl e
  | inr a => k a
  end.

Declare Scope result_scope.
Delimit Scope result_scope with result.
Notation "'do' x <- m ; k" := (bind m (fun x => k))
  (at level 10, x name, m at level 100, k at level 200) : result_scope.
Open Scope result_scope.

(** str(e), as shown by [st.error(f"Error: {str(e)}")]. *)
Definition str_exn (e : exn) : string :=
  match e with
  | KeyError s => s
  | ValueError s => s
  | IndexError s => s
  | ExternalError s => s
  end.

(** ** Data model *)

(** A row of the working table [df] up to and including [process_reviews]:
    the three columns of the uploaded CSV that the program reads, and the
    two columns [process_reviews] assigns.  [sentiment = None] says that
    the frame has no label in that row (the column has not been assigned);
    [sentiment_score = None] is [NaN]. *)
Record row : Type := Row {
  reviews_text : string;
  name : option string;
  cluster_name : option string;
  sentiment : option string;
  sentiment_score : option Z
}.

(** A row of the table [calculate_average_scores] returns: the columns of
    the left frame, and the mean column of the right frame, renamed by
    [suffixes=('', '_avg')]. *)
Record avg_row : Type := AvgRow {
  base : row;
  sentiment_score_avg : option Q
}.

Abbreviation frame := (list row).
Abbreviation avg_frame := (list avg_row).

(** ** Classifier: [process_reviews] *)

(** The dictionary [{'positive': 2, 'neutral': 1, 'negative': 0}]. *)
Definition score_dict : gmap string Z :=
  <["positive" := 2%Z]> (<["neutral" := 1%Z]> (<["negative" := 0%Z]> ∅)).

(** [Series.map(dict)]: a value that is not a key of the dictionary is
    mapped to [NaN], and so is [NaN]. *)
Definition series_map (d : gmap string Z) (labels : list (option string))
  : list (option Z) :=
  map (fun o => match o with Some l => d !! l | None => None end) labels.

(** The identity of a Python object. *)
Abbreviation loc := positive.

(** [df[col] = values] for the two columns the program assigns.  pandas
    raises [ValueError] when the length of [values] is not the length of
    the index. *)
Definition set_sentiment (r : row) (l : string) : row :=
  {| reviews_text := reviews_text r; name := name r;
     cluster_name := cluster_name r;
     sentiment := Some l; sentiment_score := sentiment_score r |}.

Definition set_sentiment_score (r : row) (s : option Z) : row :=
  {| reviews_text := reviews_text r; name := name r;
     cluster_name := cluster_name r;
     sentiment := sentiment r; sentiment_score := s |}.

Fixpoint zip_with {A B C} (f : A -> B -> C) (l : list A) (v : list B)
  : list C :=
  match l, v with
  | a :: l', b :: v' => f a b :: zip_with f l' v'
  | _, _ => []
  end.

(** [str(n)] for a length. *)
Definition str_nat (n : nat) : string :=
  NilEmpty.string_of_uint (Nat.to_uint n).

(** The message of the [ValueError] pandas raises when a column of [k]
    values is assigned to a frame of [n] rows. *)
Definition length_mismatch (k n : nat) : string :=
  "Length of values (" ++ str_nat k
    ++ ") does not match length of index (" ++ str_nat n ++ ")".

Definition setitem {V} (f : row -> V -> row) (df : loc) (values : list V)
    (σ : gmap loc frame) : result (gmap loc frame) :=
  match σ !! df with
  | None => raise (KeyError "df")
  | Some rows =>
      if Nat.eqb (length values) (length rows)
      then ret (<[df := zip_with f rows values]> σ)
      else raise (ValueError (length_mismatch (length values) (length rows)))
  end.

Definition getitem {V} (f : row -> V) (df : loc) (σ : gmap loc frame)
  : result (list V) :=
  match σ !! df with
  | None => raise (KeyError "df")
  | Some rows => ret (map f rows)
  end.

Section Classifier.

(** The feature matrix, the vectorizer and the model are external
    (scikit-learn objects loaded from the uploaded pickles). *)
Variable matrix : Type.
Variable vectorizer_transform : list string -> result matrix.
Variable model_predict : matrix -> result (list string).

(** [process_reviews(df, vectorizer, model)], lines 31-36.  [df] is a
    reference to the caller's frame; both assignments update that frame
    in the store, and the reference itself is returned. *)
Definition process_reviews (df : loc) (σ : gmap loc frame)
  : result (loc * gmap loc frame) :=
  do texts <- getitem reviews_text df σ;
  do X <- vectorizer_transform texts;
  do labels <- model_predict X;
  do σ1 <- setitem set_sentiment df labels σ;
  do sent <- getitem sentiment df σ1;
  do σ2 <- setitem set_sentiment_score df (series_map score_dict sent) σ1;
  ret (df, σ2).

End Classifier.

(** ** Helpers shared by the aggregator and the reporter *)

(** Insertion into a list sorted by [before], behind every element that
    must come before [x] and in front of the first one that need not:
    an element inserted later stays in front of its ties. *)
Fixpoint insert_by {A} (before : A -> A -> bool) (x : A) (l : list A)
  : list A :=
  match l with
  | [] => [x]
  | y :: l' => if before y x then y :: insert_by before x l' else x :: l
  end.

(** A stable sort: ties keep the order they have in [l]. *)
Definition stable_sort {A} (before : A -> A -> bool) (l : list A) : list A :=
  fold_right (insert_by before) [] l.

(** Distinct values in order of first appearance ([Series.unique], and
    the keys a [groupby] collects). *)
Fixpoint unique {A} (eqb : A -> A -> bool) (l : list A) : list A :=
  match l with
  | [] => []
  | x :: l' => x :: filter (fun y => negb (eqb x y)) (unique eqb l')
  end.

Definition pair_eqb (a b : string * string) : bool :=
  String.eqb (fst a) (fst b) && String.eqb (snd a) (snd b).

(** Tuples of strings compare lexicographically. *)
Definition pair_ltb (a b : string * string) : bool :=
  String.ltb (fst a) (fst b)
  || (String.eqb (fst a) (fst b) && String.ltb (snd a) (snd b)).

(** Equality of cells for [unique]: all [NaN] count as one value. *)
Definition cell_eqb (a b : option string) : bool :=
  match a, b with
  | Some x, Some y => String.eqb x y
  | None, None => true
  | _, _ => false
  end.

(** [==] on cells: [NaN] equals nothing, not even [NaN]. *)
Definition cell_is (a : option string) (s : string) : bool :=
  match a with
  | Some x => String.eqb x s
  | None => false
  end.

Definition sum_Q (xs : list Q) : Q := fold_right Qplus 0%Q xs.

(** [.mean()] of a group: [NaN] cells are skipped; a group with no value
    left has mean [NaN]. *)
Definition mean (xs : list (option Q)) : option Q :=
  match omap id xs with
  | [] => None
  | vs => Some (sum_Q vs / inject_Z (Z.of_nat (length vs)))%Q
  end.

(** *** Binary64 arithmetic

    A double is the rational it denotes.  [round64 q] is the double
    nearest to [q], ties to the even significand: for [q] between [2^k]
    and [2^(k+1)], the multiple of [2^(k-52)] nearest to it. *)

(** The integer nearest to [n / d], ties to even. *)
Definition round_half_even (n d : Z) : Z :=
  let m := (n / d)%Z in
  match (2 * (n mod d) ?= d)%Z with
  | Lt => m
  | Gt => (m + 1)%Z
  | Eq => if Z.even m then m else (m + 1)%Z
  end.

(** [n / d] divided by [2^e], as a fraction. *)
Definition scaled (e : Z) (n d : Z) : Z * Z :=
  if (0 <=? e)%Z then (n, d * 2 ^ e)%Z else (n * 2 ^ (- e), d)%Z.

(** The [k] with [2^k <= n / d < 2^(k+1)], for positive [n] and [d]. *)
Definition binade (n d : Z) : Z :=
  let k := (Z.log2 n - Z.log2 d)%Z in
  let '(N, D) := scaled k n d in
  if (N <? D)%Z then (k - 1)%Z else k.

Definition round64_pos (n d : Z) : Q :=
  let e := (binade n d - 52)%Z in
  let '(N, D) := scaled e n d in
  let m := round_half_even N D in
  if (0 <=? e)%Z then inject_Z (m * 2 ^ e)
  else Qmake m (Z.to_pos (2 ^ (- e))).

Definition round64 (q : Q) : Q :=
  match Qnum q with
  | Z0 => 0%Q
  | Zpos n => round64_pos (Zpos n) (Zpos (Qden q))
  | Zneg n => Qopp (round64_pos (Zpos n) (Zpos (Qden q)))
  end.

(** The sum of a column of doubles, accumulated row by row, each addition
    rounded. *)
Definition fsum (xs : list Q) : Q :=
  fold_left (fun s x => round64 (s + x)%Q) xs 0%Q.

(** [.mean()] of a group of a float column: the cells are doubles, [NaN]
    cells are skipped, the sum is accumulated in binary64 and divided by
    the count, the quotient rounded; a group with no value left has mean
    [NaN]. *)
Definition fmean (xs : list (option Q)) : option Q :=
  match omap id xs with
  | [] => None
  | vs =>
      Some (round64 (fsum (map round64 vs)
                     / inject_Z (Z.of_nat (length vs)))%Q)
  end.

(** ** Aggregator: [calculate_average_scores] *)

(** The grouping key of a row; [groupby] drops a row in which a key column
    is [NaN] (its default [dropna=True]). *)
Definition group_key (r : row) : option (string * string) :=
  match cluster_name r, name r with
  | Some c, Some p => Some (c, p)
  | _, _ => None
  end.

Definition has_key (k : string * string) (r : row) : bool :=
  match group_key r with
  | Some k' => pair_eqb k k'
  | None => false
  end.

Definition score_Q (r : row) : option Q :=
  option_map inject_Z (sentiment_score r).

(** The scores of the group of [k], in frame order. *)
Definition group_scores (df : frame) (k : string * string)
  : list (option Q) :=
  map score_Q (filter (has_key k) df).

(** The keys [groupby(['cluster_name', 'name'])] observes, each once,
    sorted (its default [sort=True]). *)
Definition group_keys (df : frame) : list (string * string) :=
  stable_sort pair_ltb (unique pair_eqb (omap group_key df)).

(** [df.groupby(['cluster_name', 'name'])['sentiment_score'].mean()
    .reset_index()]: one row per observed key, sorted by key. *)
Definition product_scores (df : frame) : list (string * string * option Q) :=
  map (fun k => (k, mean (group_scores df k))) (group_keys df).

(** [left.merge(right, on=['cluster_name', 'name'], suffixes=('', '_avg'))]
    with the default [how='inner']: each left row once per right row with
    its key; a left row without a partner is dropped.  The rows come in
    the order of the left frame, as documented and as pandas 2.2 and later
    produce them; earlier versions emit them key by key.  No property
    stated below depends on that order. *)
Definition merge (left : frame) (right : list (string * string * option Q))
  : avg_frame :=
  flat_map
    (fun r => map (fun g => AvgRow r (snd g))
                  (filter (fun g => has_key (fst g) r) right))
    left.

(** [calculate_average_scores(df)], lines 38-43. *)
Definition calculate_average_scores (df : frame) : avg_frame :=
  merge df (product_scores df).

(** ** Reporter: ranking and article generation *)

(** What the run shows on the page, and what it sends to the completion
    service, in order. *)
Inductive event : Type :=
| St_subheader (s : string)
| Request (prompt : string)
| St_write (s : string)
| St_markdown (s : string)
| St_error (s : string)
| St_warning (s : string).

(** The page so far and the number of completion requests issued. *)
Record world : Type := World {
  calls : nat;
  log : list event
}.

Definition emit (e : event) (w : world) : world :=
  {| calls := calls w; log := log w ++ [e] |}.

(** [df['cluster_name'].unique()] *)
Definition categories (df : avg_frame) : list (option string) :=
  unique cell_eqb (map (fun r => cluster_name (base r)) df).

(** [df[df['cluster_name'] == category]] *)
Definition category_df (df : avg_frame) (category : option string)
  : avg_frame :=
  match category with
  | Some c => filter (fun r => cell_is (cluster_name (base r)) c) df
  | None => []
  end.

(** The product names [groupby('name')] observes, each once, sorted. *)
Definition product_names (category_df : avg_frame) : list string :=
  stable_sort String.ltb
    (unique String.eqb (omap (fun r => name (base r)) category_df)).

(** [category_df.groupby('name')['sentiment_score_avg'].mean()
    .reset_index()], lines 103-106: one row per product, sorted by name,
    with the binary64 mean of the product's cells. *)
Definition product_sentiments (category_df : avg_frame)
  : list (string * option Q) :=
  map (fun p =>
         (p, fmean (map sentiment_score_avg
                        (filter (fun r => cell_is (name (base r)) p)
                                category_df))))
      (product_names category_df).

(** [a] is ranked strictly before [b] by [nlargest]: a larger value first,
    [NaN] behind every value. *)
Definition larger (a b : string * option Q) : bool :=
  match snd a, snd b with
  | Some x, Some y => negb (Qle_bool x y)
  | Some _, None => true
  | None, _ => false
  end.

(** [a] is ranked strictly before [b] by [nsmallest]. *)
Definition smaller (a b : string * option Q) : bool :=
  match snd a, snd b with
  | Some x, Some y => negb (Qle_bool y x)
  | Some _, None => true
  | None, _ => false
  end.

(** [frame.nlargest(n, col)] and [frame.nsmallest(n, col)] with the default
    [keep='first']: the first [n] rows of the frame sorted by the column,
    ties in frame order. *)
Definition nlargest (n : nat) (ps : list (string * option Q))
  : list (string * option Q) :=
  firstn n (stable_sort larger ps).

Definition nsmallest (n : nat) (ps : list (string * option Q))
  : list (string * option Q) :=
  firstn n (stable_sort smaller ps).

(** Line 107. *)
Definition top_products (product_sentiments : list (string * option Q))
  : list string :=
  map fst (nlargest 3 product_sentiments).

(** Line 108; [.iloc[0]] raises [IndexError] on an empty selection. *)
Definition bottom_product (product_sentiments : list (string * option Q))
  : result string :=
  match map fst (nsmallest 1 product_sentiments) with
  | p :: _ => ret p
  | [] => raise (IndexError "single positional indexer is out-of-bounds")
  end.

(** [Series.isin(values)] on a cell. *)
Definition isin (a : option string) (values : list string) : bool :=
  match a with
  | Some x => existsb (String.eqb x) values
  | None => false
  end.

(** Line 111. *)
Definition top_reviews (category_df : avg_frame) (top_products : list string)
  : list string :=
  map (fun r => reviews_text (base r))
      (filter (fun r => isin (name (base r)) top_products) category_df).

(** The f-string of [generate_article], lines 50-67. *)
Definition prompt_of (category_name : string) (top_products : list string)
    (bottom_product : string) (reviews : string) : string :=
  "
    Write a blog post titled 'Top Products in " ++ category_name ++ "'.
    Include the following:
    - Introduction to the category.
    - Top 3 products: " ++ (String.concat ", " top_products) ++ ".
      - Key differences between them.
      - When a consumer should choose one over another.
    - Common complaints or issues for each of these top products.
    - The worst product in the category: " ++ bottom_product ++ ".
      - Reasons why consumers should avoid it.
    - Conclusion with a recommendation.
    
    Use a friendly and informative tone, similar to articles on The Verge or Wirecutter.
    Incorporate insights from the following reviews:
    " ++ reviews ++ "
    
    Keep the article concise and engaging.
    ".

(** [f"{category}"] for a cell. *)
Definition format_cell (a : option string) : string :=
  match a with
  | Some s => s
  | None => "nan"
  end.

Section Reporter.

(** [openai.Completion.create(...).choices[0].text]: the answer of the
    service to its [n]-th request, or the exception it raises. *)
Variable completion_create : nat -> string -> result string.

(** [str.strip] of the Python runtime. *)
Variable strip : string -> string.

(** [generate_article], lines 45-74: one request, no handler. *)
Definition generate_article (category_name : string)
    (top_products : list string) (bottom_product : string)
    (reviews : string) (w : world) : result string * world :=
  let prompt := prompt_of category_name top_products bottom_product reviews in
  let w' := {| calls := S (calls w); log := log w ++ [Request prompt] |} in
  match completion_create (calls w) prompt with
  | inl e => (inl e, w')
  | inr text => (inr (strip text), w')
  end.

(** The body of the [for category in ...] loop, lines 99-123. *)
Definition category_step (df : avg_frame) (category : option string)
    (w : world) : result unit * world :=
  let w1 := emit (St_subheader ("Category: " ++ format_cell category)) w in
  let category_df := category_df df category in
  let product_sentiments := product_sentiments category_df in
  let top_products := top_products product_sentiments in
  match bottom_product product_sentiments with
  | inl e => (inl e, w1)
  | inr bottom_product =>
      let top_reviews := top_reviews category_df top_products in
      match generate_article (format_cell category) top_products
              bottom_product (String.concat " " (firstn 5 top_reviews)) w1
      with
      | (inl e, w2) => (inl e, w2)
      | (inr article, w2) =>
          (ret tt, emit (St_markdown "---") (emit (St_write article) w2))
      end
  end.

(** The loop, lines 98-123: an exception leaves it at once. *)
Fixpoint category_loop (df : avg_frame) (cats : list (option string))
    (w : world) : result unit * world :=
  match cats with
  | [] => (ret tt, w)
  | category :: rest =>
      match category_step df category w with
      | (inl e, w') => (inl e, w')
      | (inr _, w') => category_loop df rest w'
      end
  end.

Section Run.

Variable matrix : Type.
Variable vectorizer_transform : list string -> result matrix.
Variable model_predict : matrix -> result (list string).

(** The [try] block, lines 93-123, from the loaded frame on. *)
Definition try_block (df : loc) (σ : gmap loc frame) (w : world)
  : result unit * world :=
  match process_reviews matrix vectorizer_transform model_predict df σ
  with
  | inl e => (inl e, w)
  | inr (df, σ') =>
      match σ' !! df with
      | None => (raise (KeyError "df"), w)
      | Some rows =>
          let df := calculate_average_scores rows in
          category_loop df (categories df) w
      end
  end.

(** The button handler, lines 85-128: [uploaded] tells whether all
    three files were uploaded; [except Exception as e] turns any
    exception into an error banner. *)
Definition on_click (uploaded : bool) (df : loc) (σ : gmap loc frame)
    (w : world) : world :=
  if uploaded then
    match try_block df σ w with
    | (inl e, w') => emit (St_error ("Error: " ++ str_exn e)) w'
    | (inr _, w') => w'
    end
  else emit (St_warning "Please upload all required files.") w.

End Run.

End Reporter.

(** ** Loading, and the button handler from the uploads on *)

Section App.

(** An uploaded file, and an object read from a pickle. *)
Variable file : Type.
Variable pyobj : Type.

(** [pd.read_csv] and [joblib.load]: the table or object read from the
    file, or the exception raised. *)
Variable read_csv : file -> result frame.
Variable joblib_load : file -> result pyobj.

(** The attribute [vectorizer] of an object, when it has one
    ([hasattr(model, 'vectorizer')] and [model.vectorizer]). *)
Variable vectorizer_attr : pyobj -> option pyobj.

(** [vectorizer.transform] and [model.predict] of the loaded objects. *)
Variable matrix : Type.
Variable transform : pyobj -> list string -> result matrix.
Variable predict : pyobj -> matrix -> result (list string).

Variable completion_create : nat -> string -> result string.
Variable strip : string -> string.

(** [load_data], lines 17-19. *)
Definition load_data (file_path : file) : result frame :=
  read_csv file_path.

(** [load_model], lines 21-23. *)
Definition load_model (file_path : file) : result pyobj :=
  joblib_load file_path.

(** [load_vectorizer], lines 25-29. *)
Definition load_vectorizer (model : pyobj) (file_path : file)
  : result pyobj :=
  match vectorizer_attr model with
  | Some vectorizer => ret vectorizer
  | None => joblib_load file_path
  end.

(** The three loads at the head of the [try] block, lines 89-91. *)
Definition load_uploads (uploaded_data uploaded_model uploaded_vectorizer
    : file) : result (frame * pyobj * pyobj) :=
  do df <- load_data uploaded_data;
  do svm_model <- load_model uploaded_model;
  do vectorizer <- load_vectorizer svm_model uploaded_vectorizer;
  ret (df, svm_model, vectorizer).

(** [if st.button(...)]: the whole handler, lines 85-128.  An upload that
    was not made is [None]; the frame [load_data] returns is a new object
    of the store. *)
Definition button (uploaded_data uploaded_model uploaded_vectorizer
    : option file) (w : world) : world :=
  match uploaded_data, uploaded_model, uploaded_vectorizer with
  | Some data, Some model, Some vec =>
      match load_uploads data model vec with
      | inl e => emit (St_error ("Error: " ++ str_exn e)) w
      | inr (rows, svm_model, vectorizer) =>
          on_click completion_create strip matrix (transform vectorizer)
            (predict svm_model) true 1%positive {[ 1%positive := rows ]} w
      end
  | _, _, _ => emit (St_warning "Please upload all required files.") w
  end.

End App.

(** ** Notions used to state the properties *)

(** A row with both key cells present: the rows [groupby] assigns to a
    group. *)
Definition keyed (r : row) : bool :=
  match group_key r with
  | Some _ => true
  | None => false
  end.

(** The row an inner join with the group means of [df] makes of a left
    row: none for a row without a group. *)
Definition averaged (df : frame) (r : row) : option avg_row :=
  match group_key r with
  | Some k => Some (AvgRow r (mean (group_scores df k)))
  | None => None
  end.

(** [ordered before T a b]: [a] may stand in front of [b] in a list sorted
    by [stable_sort before]: [b] is not strictly before [a], and where
    neither is before the other, [T] (the order of the input) decides. *)
Definition ordered {A} (before : A -> A -> bool) (T : A -> A -> Prop)
    (a b : A) : Prop :=
  before b a = false /\ (before a b = true \/ T a b).

(** Two cells hold the same number, or are both [NaN]. *)
Definition same_value (a b : option Q) : Prop :=
  match a, b with
  | Some x, Some y => (x == y)%Q
  | None, None => True
  | _, _ => False
  end.

(** Descending order of mean scores: [a] is at least [b]; [NaN] is below
    every value. *)
Definition ranked_ge (a b : option Q) : Prop :=
  match a, b with
  | Some x, Some y => (y <= x)%Q
  | Some _, None => True
  | None, Some _ => False
  | None, None => True
  end.

(** Ascending order of mean scores: [a] is at most [b]; [NaN] is above
    every value. *)
Definition ranked_le (a b : option Q) : Prop :=
  match a, b with
  | Some x, Some y => (x <= y)%Q
  | Some _, None => True
  | None, Some _ => False
  | None, None => True
  end.

(** A cell is [NaN] or holds a number between [lo] and [hi]. *)
Definition within (lo hi : Q) (o : option Q) : Prop :=
  match o with
  | Some q => (lo <= q /\ q <= hi)%Q
  | None => True
  end.

(** Two rows are the same review: same text, product and category. *)
Definition same_review (r r' : row) : Prop :=
  reviews_text r = reviews_text r' /\ name r = name r' /\
  cluster_name r = cluster_name r'.

(** The events that are requests to the completion service. *)
Definition is_request (e : event) : bool :=
  match e with
  | Request _ => true
  | _ => false
  end.

(** The events the category loop produces: headings, requests, articles
    and separators. *)
Definition loop_event (e : event) : Prop :=
  match e with
  | St_error _ | St_warning _ => False
  | _ => True
  end.

(** ** The classifier's contract, in the words of the specification *)

(** The fixed mapping positive:2, neutral:1, negative:0; any other label
    has no score. *)
Definition score_of_label (l : string) : option Z :=
  if String.eqb l "positive" then Some 2%Z
  else if String.eqb l "neutral" then Some 1%Z
  else if String.eqb l "negative" then Some 0%Z
  else None.

(** A row with its label and the score of the label. *)
Definition labeled (r : row) (l : string) : row :=
  {| reviews_text := reviews_text r; name := name r;
     cluster_name := cluster_name r;
     sentiment := Some l; sentiment_score := score_of_label l |}.

(** ** The sample of reviews, in the words of the specification *)

(** The product of the row belongs to the set [products]. *)
Definition of_products (products : list string) (r : avg_row) : bool :=
  match name (base r) with
  | Some p => if in_dec string_dec p products then true else false
  | None => false
  end.

(** The first (up to) [n] review texts, in table order, among the rows
    whose product belongs to [products]. *)
Fixpoint first_reviews (n : nat) (products : list string)
    (table : avg_frame) : list string :=
  match n, table with
  | S n', r :: table' =>
      if of_products products r
      then reviews_text (base r) :: first_reviews n' products table'
      else first_reviews n products table'
  | _, _ => []
  end.

(** ** Example tables *)

(** One uploaded review, not yet classified. *)
Definition one_review : frame :=
  [ Row "it is a tablet" (Some "Fire Tablet") (Some "tablets") None None ].

(** A model that answers with a label outside the three expected ones. *)
Definition predict_mixed (X : list string) : result (list string) :=
  ret (map (fun _ => "mixed") X).

(** A model that finds every review positive. *)
Definition predict_positive (X : list string) : result (list string) :=
  ret (map (fun _ => "positive") X).

(** A vectorizer that hands the texts on. *)
Definition transform_id (texts : list string) : result (list string) :=
  ret texts.

(** A table in which the second review has no product name. *)
Definition unnamed_review : frame :=
  [ Row "works well" (Some "Fire Tablet") (Some "tablets")
        (Some "positive") (Some 2%Z);
    Row "arrived late" None (Some "tablets") (Some "negative") (Some 0%Z) ].

(** One category, four products with mean scores A = 2.0, B = 1.5,
    C = 1.0, D = 0.5. *)
Definition review (category product text : string) (score : Z) : row :=
  {| reviews_text := text; name := Some product;
     cluster_name := Some category;
     sentiment := None; sentiment_score := Some score |}.

Definition four_products : frame :=
  [ review "tablets" "D" "slow" 1; review "tablets" "B" "fine" 2;
    review "tablets" "A" "superb" 2; review "tablets" "C" "okay" 1;
    review "tablets" "D" "broke" 0; review "tablets" "B" "decent" 1 ].

(** One category, three products, two of them tied at the top, the
    later-named one reviewed first. *)
Definition tied_products : frame :=
  [ review "readers" "Kindle Paperwhite" "sharp screen" 2;
    review "readers" "Kindle Oasis" "light" 2;
    review "readers" "Kindle Basic" "dim" 1 ].

(** The four products with the scores the other way round: A = 0.5,
    B = 1.0, C = 1.5, D = 2.0. *)
Definition rising_products : frame :=
  [ review "tablets" "A" "slow" 1; review "tablets" "C" "fine" 2;
    review "tablets" "D" "superb" 2; review "tablets" "B" "okay" 1;
    review "tablets" "A" "broke" 0; review "tablets" "C" "decent" 1 ].




(** One category with a single product. *)
Definition single_product : frame :=
  [ review "speakers" "Echo Dot" "loud" 2;
    review "speakers" "Echo Dot" "tinny" 0 ].

(** Two categories, uploaded and not yet classified. *)
Definition two_categories : frame :=
  [ Row "bright screen" (Some "Fire Tablet") (Some "tablets") None None;
    Row "good sound" (Some "Echo Dot") (Some "speakers") None None;
    Row "fast enough" (Some "Fire Tablet") (Some "tablets") None None ].

(** A completion service that answers the first request and refuses every
    later one. *)
Definition quota_of_one (n : nat) (prompt : string) : result string :=
  if Nat.eqb n 0 then ret "An article."
  else raise (ExternalError "You exceeded your current quota").

(** The review of [one_review], uploaded with a label and a score of its
    own. *)
Definition preclassified_review : frame :=
  [ Row "it is a tablet" (Some "Fire Tablet") (Some "tablets")
        (Some "negative") (Some 0%Z) ].

(** One category, four products, every review positive. *)
Definition all_tied : frame :=
  [ review "cables" "D" "works" 2; review "cables" "B" "works" 2;
    review "cables" "C" "works" 2; review "cables" "A" "works" 2 ].

(** A table whose only review got a label outside the three. *)
Definition unknown_only : frame :=
  [ Row "hm" (Some "Fire Tablet") (Some "tablets") (Some "mixed") None ].

(** A vectorizer that raises. *)
Definition transform_fails (texts : list string) : result (list string) :=
  raise (ExternalError "empty vocabulary").


(** A completion service that always answers. *)
Definition always_answers (n : nat) (prompt : string) : result string :=
  ret "An article.".

(** Uploads named by strings; the table and the pickles behind them.  The
    model of the upload [embedded] carries its vectorizer. *)
Definition csv_of (f : string) : result frame :=
  if String.eqb f "reviews.csv" then ret two_categories
  else raise (ExternalError "No columns to parse from file").

Definition pickle_of (f : string) : result string :=
  if String.eqb f "broken.pkl" then raise (ExternalError "invalid load key")
  else ret f.

Definition embedded_vectorizer (o : string) : option string :=
  if String.eqb o "embedded.pkl" then Some "its own vectorizer" else None.

Definition transform_with (vectorizer : string) (texts : list string)
  : result (list string) :=
  ret texts.

Definition predict_with (model : string) (X : list string)
  : result (list string) :=
  ret (map (fun _ => "positive") X).

(** * Properties *)

(** ** The order on strings *)

Lemma string_compare_OT (a b : string) :
  String.compare a b = String_as_OT.compare a b.
Proof.
  revert b; induction a as [|x a IH]; intros [|y b]; reflexivity.
Qed.

Lemma ltb_lt (a b : string) : String.ltb a b = true <-> String_as_OT.lt a b.
Proof.
  unfold String.ltb, String_as_OT.lt. rewrite string_compare_OT.
  destruct (String_as_OT.compare a b); split; congruence.
Qed.

Lemma ltb_irrefl (a : string) : String.ltb a a = false.
Proof.
  destruct (String.ltb a a) eqn:E; auto.
  apply ltb_lt in E. exfalso. exact (StrictOrder_Irreflexive a E).
Qed.

Lemma ltb_trans (a b c : string) :
  String.ltb a b = true -> String.ltb b c = true -> String.ltb a c = true.
Proof.
  rewrite !ltb_lt. apply (StrictOrder_Transitive (R := String_as_OT.lt)).
Qed.

Lemma ltb_asym (a b : string) :
  String.ltb a b = true -> String.ltb b a = false.
Proof.
  intros H. destruct (String.ltb b a) eqn:E; auto.
  rewrite <- (ltb_irrefl a). symmetry. eapply ltb_trans; eauto.
Qed.

Lemma ltb_total (a b : string) :
  String.ltb a b = false -> String.ltb b a = false -> a = b.
Proof.
  unfold String.ltb. rewrite (String.compare_antisym b a).
  destruct (String.compare a b) eqn:E; simpl; try discriminate.
  intros _ _. now apply String.compare_eq_iff.
Qed.


Lemma pair_eqb_eq (a b : string * string) : pair_eqb a b = true <-> a = b.
Proof.
  destruct a as [a1 a2], b as [b1 b2]. unfold pair_eqb. simpl.
  rewrite andb_true_iff, !String.eqb_eq. split.
  - intros [-> ->]. reflexivity.
  - intros [= -> ->]. auto.
Qed.

Lemma pair_ltb_asym (a b : string * string) :
  pair_ltb a b = true -> pair_ltb b a = false.
Proof.
  destruct a as [a1 a2], b as [b1 b2]. unfold pair_ltb. simpl.
  rewrite orb_true_iff, andb_true_iff, String.eqb_eq.
  intros [H | [-> H]].
  - rewrite (ltb_asym _ _ H). simpl.
    destruct (String.eqb_spec b1 a1) as [->|]; auto.
    rewrite ltb_irrefl in H. discriminate.
  - rewrite ltb_irrefl, String.eqb_refl, (ltb_asym _ _ H). reflexivity.
Qed.

Lemma pair_ltb_total (a b : string * string) :
  pair_ltb a b = false -> pair_ltb b a = false -> a = b.
Proof.
  destruct a as [a1 a2], b as [b1 b2]. unfold pair_ltb. simpl.
  rewrite !orb_false_iff. intros [H1 H2] [H3 H4].
  pose proof (ltb_total _ _ H1 H3) as ->.
  rewrite String.eqb_refl in H2, H4. simpl in *.
  now rewrite (ltb_total _ _ H2 H4).
Qed.

Lemma pair_ltb_trans (a b c : string * string) :
  pair_ltb a b = true -> pair_ltb b c = true -> pair_ltb a c = true.
Proof.
  destruct a as [a1 a2], b as [b1 b2], c as [c1 c2]. unfold pair_ltb. simpl.
  rewrite !orb_true_iff, !andb_true_iff, !String.eqb_eq.
  intros [H | [-> H]] [H' | [-> H']].
  - left. eapply ltb_trans; eauto.
  - now left.
  - now left.
  - right. split; auto. eapply ltb_trans; eauto.
Qed.

Lemma pair_ltb_negtrans (x y z : string * string) :
  pair_ltb y x = false -> pair_ltb z y = false -> pair_ltb z x = false.
Proof.
  intros H1 H2. destruct (pair_ltb z x) eqn:E; auto.
  destruct (pair_ltb x y) eqn:Exy.
  - rewrite (pair_ltb_trans _ _ _ E Exy) in H2. discriminate.
  - rewrite (pair_ltb_total _ _ Exy H1) in E. congruence.
Qed.

(** ** Binary64 arithmetic on known values *)

(** [round64] gives the doubles of 1/10, 1/3 and 3/5, leaves 3/2 as it
    is, and ten times 0.1 add up to 0.9999999999999999. *)
Lemma round64_known_values :
  (round64 (1 # 10) == 3602879701896397 # 36028797018963968)%Q
  /\ (round64 (1 # 3) == 6004799503160661 # 18014398509481984)%Q
  /\ (round64 (3 # 5) == 5404319552844595 # 9007199254740992)%Q
  /\ (round64 (3 # 2) == 3 # 2)%Q
  /\ (round64 (- (1 # 3)) == - (6004799503160661 # 18014398509481984))%Q
  /\ (fsum (repeat (round64 (1 # 10)) 10)
       == 9007199254740991 # 9007199254740992)%Q.
Proof. repeat split; vm_compute; reflexivity. Qed.

(** ** Sorting and distinct values *)

Section Sorting.

Context {A : Type} (before : A -> A -> bool).

Lemma insert_by_perm (x : A) (l : list A) :
  Permutation (insert_by before x l) (x :: l).
Proof.
  induction l as [|y l IH]; simpl; auto.
  destruct (before y x); auto.
  rewrite IH. apply perm_swap.
Qed.

Lemma stable_sort_perm (l : list A) : Permutation (stable_sort before l) l.
Proof.
  induction l as [|x l IH]; simpl; auto.
  unfold stable_sort in *. simpl. rewrite insert_by_perm. auto.
Qed.

Lemma stable_sort_In (l : list A) (x : A) :
  In x (stable_sort before l) <-> In x l.
Proof.
  split; apply Permutation_in;
    [ | apply Permutation_sym ]; apply stable_sort_perm.
Qed.

Lemma stable_sort_length (l : list A) :
  length (stable_sort before l) = length l.
Proof. apply Permutation_length, stable_sort_perm. Qed.

Hypothesis before_asym :
  forall x y, before x y = true -> before y x = false.
Hypothesis before_negtrans :
  forall x y z, before y x = false -> before z y = false ->
                before z x = false.

Lemma insert_by_sorted (T : A -> A -> Prop) (x : A) (l : list A) :
  Forall (T x) l ->
  StronglySorted (ordered before T) l ->
  StronglySorted (ordered before T) (insert_by before x l).
Proof.
  intros HT HS. induction HS as [|y l HS IH Hy]; simpl.
  - repeat constructor.
  - inversion HT as [|? ? Ty HT']; subst.
    destruct (before y x) eqn:E.
    + constructor; auto.
      eapply Permutation_Forall;
        [ apply Permutation_sym, insert_by_perm | ].
      constructor; auto.
      split; auto.
    + constructor; [ constructor; auto | ].
      constructor; [ split; auto | ].
      rewrite Forall_forall in *. intros z Hz.
      destruct (Hy z Hz) as [Hzy _].
      split; eauto.
Qed.

(** Stability: the sorted list is ordered by [before], and among ties by
    the order of the input. *)
Lemma stable_sort_sorted (T : A -> A -> Prop) (l : list A) :
  StronglySorted T l -> StronglySorted (ordered before T) (stable_sort before l).
Proof.
  induction 1 as [|x l HS IH Hx]; simpl; [ constructor | ].
  apply insert_by_sorted; auto.
  eapply Permutation_Forall; [ apply Permutation_sym, stable_sort_perm | ].
  exact Hx.
Qed.

End Sorting.

Lemma StronglySorted_impl {A} (R S : A -> A -> Prop) (l : list A) :
  (forall a b, R a b -> S a b) -> StronglySorted R l -> StronglySorted S l.
Proof.
  intros HRS. induction 1 as [|x l HS IH Hx]; constructor; auto.
  eapply Forall_impl; [ | exact Hx ]. auto.
Qed.

Lemma StronglySorted_neq {A} (l : list A) :
  NoDup l -> StronglySorted (fun a b => a <> b) l.
Proof.
  induction 1 as [|x l Hx HN IH]; constructor; auto.
  rewrite Forall_forall. intros y Hy ->. auto.
Qed.

(** A list without duplicates, sorted by a strict total order, is
    determined by its elements. *)
Lemma sorted_ext {A} (lt : A -> A -> Prop) (l1 l2 : list A) :
  (forall a, ~ lt a a) ->
  (forall a b, lt a b -> lt b a -> False) ->
  StronglySorted lt l1 -> StronglySorted lt l2 ->
  (forall x, In x l1 <-> In x l2) -> l1 = l2.
Proof.
  intros Hirr Hasym HS1. revert l2.
  induction HS1 as [|x l1 HS1 IH Hx]; intros l2 HS2 Hin.
  - destruct l2 as [|y l2]; auto. destruct (proj2 (Hin y)); simpl; auto.
  - destruct HS2 as [|y l2 HS2 Hy].
    + destruct (proj1 (Hin x)); simpl; auto.
    + rewrite Forall_forall in Hx, Hy.
      assert (x = y) as ->.
      { destruct (proj1 (Hin x)) as [E|Hx2]; simpl; auto.
        destruct (proj2 (Hin y)) as [E|Hy1]; simpl; auto.
        exfalso. eapply Hasym; eauto. }
      f_equal. apply IH; auto.
      intros z. split; intros Hz.
      * destruct (proj1 (Hin z)) as [E|]; simpl; auto.
        subst. exfalso. eapply Hirr; eauto.
      * destruct (proj2 (Hin z)) as [E|]; simpl; auto.
        subst. exfalso. eapply Hirr; eauto.
Qed.

Section Unique.

Context {A : Type} (eqb : A -> A -> bool).
Hypothesis eqb_eq : forall a b, eqb a b = true <-> a = b.

Lemma unique_In (l : list A) (x : A) : In x (unique eqb l) <-> In x l.
Proof.
  induction l as [|y l IH]; simpl; [ tauto | ].
  rewrite filter_In, IH, negb_true_iff.
  destruct (eqb y x) eqn:E.
  - apply eqb_eq in E. subst. intuition congruence.
  - assert (y <> x) by (intros ->; rewrite (proj2 (eqb_eq x x)) in E;
                        congruence).
    intuition congruence.
Qed.

Lemma unique_NoDup (l : list A) : NoDup (unique eqb l).
Proof.
  induction l as [|y l IH]; simpl; constructor.
  - rewrite filter_In, negb_true_iff.
    intros [_ E]. rewrite (proj2 (eqb_eq y y)) in E; congruence.
  - now apply NoDup_filter.
Qed.

End Unique.

(** ** The aggregator, row by row *)

Lemma has_key_cells (c p : string) (r : row) :
  has_key (c, p) r = cell_is (cluster_name r) c && cell_is (name r) p.
Proof.
  unfold has_key, group_key, cell_is, pair_eqb.
  destruct (cluster_name r) as [c'|], (name r) as [p'|]; simpl;
    rewrite ?(String.eqb_sym c c'), ?(String.eqb_sym p p'), ?andb_false_r;
    reflexivity.
Qed.

Lemma group_keys_In (df : frame) (k : string * string) :
  In k (group_keys df) <-> exists r, In r df /\ group_key r = Some k.
Proof.
  unfold group_keys. rewrite stable_sort_In, (unique_In _ pair_eqb_eq).
  rewrite <- list_elem_of_In, list_elem_of_omap.
  setoid_rewrite list_elem_of_In. reflexivity.
Qed.

Lemma group_keys_NoDup (df : frame) : NoDup (group_keys df).
Proof.
  unfold group_keys.
  eapply Permutation_NoDup;
    [ apply Permutation_sym, stable_sort_perm | ].
  apply (unique_NoDup _ pair_eqb_eq).
Qed.

Lemma filter_none {A} (f : A -> bool) (l : list A) :
  (forall x, In x l -> f x = false) -> filter f l = [].
Proof.
  induction l as [|x l IH]; simpl; intros H; auto.
  rewrite (H x (or_introl eq_refl)). auto.
Qed.

Lemma filter_eqb_NoDup (k : string * string) (l : list (string * string)) :
  NoDup l -> In k l -> filter (fun k' => pair_eqb k' k) l = [k].
Proof.
  induction 1 as [|x l Hx HN IH]; simpl; [ easy | ].
  intros [->|Hk].
  - rewrite (proj2 (pair_eqb_eq k k) eq_refl). f_equal.
    apply filter_none.
    intros y Hy. destruct (pair_eqb y k) eqn:E; auto.
    apply pair_eqb_eq in E. subst. contradiction.
  - destruct (pair_eqb x k) eqn:E; auto.
    apply pair_eqb_eq in E. subst. contradiction.
Qed.

Lemma filter_map_swap {A B} (f : B -> bool) (g : A -> B) (l : list A) :
  filter f (map g l) = map g (filter (fun a => f (g a)) l).
Proof.
  induction l as [|x l IH]; simpl; auto.
  destruct (f (g x)); simpl; congruence.
Qed.

(** The partners of a left row in [product_scores]: its group, once. *)
Lemma partners (df : frame) (r : row) :
  In r df ->
  filter (fun g => has_key (fst g) r) (product_scores df) =
  match group_key r with
  | Some k => [(k, mean (group_scores df k))]
  | None => []
  end.
Proof.
  intros Hr. unfold product_scores. rewrite filter_map_swap. simpl.
  destruct (group_key r) as [k|] eqn:E.
  - rewrite (filter_ext _ (fun k' => pair_eqb k' k)).
    + rewrite filter_eqb_NoDup; auto using group_keys_NoDup.
      apply group_keys_In. eauto.
    + intros k'. unfold has_key. now rewrite E.
  - rewrite filter_none; auto.
    intros k _. unfold has_key. now rewrite E.
Qed.

Lemma merge_rows (df l : frame) :
  incl l df -> merge l (product_scores df) = omap (averaged df) l.
Proof.
  unfold merge.
  induction l as [|r l IH]; intros Hl; [ reflexivity | ].
  cbn [flat_map omap list_omap].
  rewrite partners by (apply Hl; simpl; auto).
  rewrite IH by (intros x Hx; apply Hl; simpl; auto).
  unfold averaged at 2. destruct (group_key r); reflexivity.
Qed.

Lemma calculate_average_scores_rows (df : frame) :
  calculate_average_scores df = omap (averaged df) df.
Proof. apply merge_rows, incl_refl. Qed.

Lemma averaged_base (df l : frame) :
  map base (omap (averaged df) l) = filter keyed l.
Proof.
  induction l as [|r l IH]; [ reflexivity | ].
  cbn [omap list_omap filter]. unfold averaged at 1, keyed at 1.
  destruct (group_key r); simpl; congruence.
Qed.

Lemma averaged_In (df l : frame) (a : avg_row) :
  In a (omap (averaged df) l) <->
  exists k, In (base a) l /\ group_key (base a) = Some k /\
            sentiment_score_avg a = mean (group_scores df k).
Proof.
  rewrite <- list_elem_of_In, list_elem_of_omap.
  setoid_rewrite list_elem_of_In. unfold averaged. split.
  - intros (r & Hr & E). destruct (group_key r) as [k|] eqn:Ek; [ | easy ].
    injection E as <-. simpl. eauto.
  - intros (k & Hr & Ek & E). exists (base a). split; auto.
    rewrite Ek, <- E. now destruct a.
Qed.

Lemma group_key_cells (r : row) (c p : string) :
  group_key r = Some (c, p) <-> cluster_name r = Some c /\ name r = Some p.
Proof.
  unfold group_key. destruct (cluster_name r), (name r); split;
    try intros [? ?]; try congruence; intros [= -> ->]; auto.
Qed.

(** C1 as stated fails: [calculate_average_scores] does not keep the row
    count of a table in which a review has no product name; the inner join
    drops that row. *)
Lemma calculate_average_scores_drops_rows :
  length (calculate_average_scores unnamed_review) = 1
  /\ length unnamed_review = 2
  /\ ~ (forall df : frame,
          length (calculate_average_scores df) = length df).
Proof.
  split; [ reflexivity | split; [ reflexivity | ] ].
  intros H. specialize (H unnamed_review). discriminate H.
Qed.

(** C1, amended: [calculate_average_scores] returns exactly the input rows
    whose category and product name are both present, each once (no such
    row lost, none duplicated); every returned row carries as
    [sentiment_score_avg] the mean of [sentiment_score] (missing scores
    skipped) over exactly the input rows with its own (category, product)
    key; so the row count is that of the input whenever no input row lacks
    a key cell. *)
Theorem calculate_average_scores_inner_join (df : frame) :
  Permutation (map base (calculate_average_scores df)) (filter keyed df)
  /\ (forall a, In a (calculate_average_scores df) ->
       exists c p,
         cluster_name (base a) = Some c /\ name (base a) = Some p /\
         sentiment_score_avg a =
           mean (map score_Q
                   (filter (fun r => cell_is (cluster_name r) c
                                     && cell_is (name r) p) df)))
  /\ ((forall r, In r df -> cluster_name r <> None /\ name r <> None) ->
      length (calculate_average_scores df) = length df).
Proof.
  rewrite calculate_average_scores_rows.
  split; [ now rewrite averaged_base | split ].
  - intros a (k & _ & Ek & E)%averaged_In. destruct k as [c p].
    apply group_key_cells in Ek as [Hc Hp].
    exists c, p. repeat split; auto.
    rewrite E. unfold group_scores. f_equal. f_equal.
    apply filter_ext. intros r. apply has_key_cells.
  - intros Hall.
    rewrite <- (length_map base), averaged_base.
    rewrite (filter_ext_in keyed (fun _ => true)).
    + now rewrite filter_true.
    + intros r Hr. destruct (Hall r Hr) as [Hc Hp].
      unfold keyed, group_key.
      destruct (cluster_name r), (name r); congruence.
Qed.

(** ** The classifier *)

Lemma score_dict_lookup (l : string) : score_dict !! l = score_of_label l.
Proof.
  unfold score_dict, score_of_label.
  rewrite !lookup_insert, lookup_empty.
  repeat case_decide; subst; simpl; try reflexivity;
    repeat match goal with
    | |- context [String.eqb ?a ?b] =>
        destruct (String.eqb_spec a b); try congruence
    end.
Qed.

Lemma zip_with_scores (rows : frame) (labels : list string) :
  zip_with set_sentiment_score (zip_with set_sentiment rows labels)
    (series_map score_dict
       (map sentiment (zip_with set_sentiment rows labels)))
  = zip_with labeled rows labels.
Proof.
  revert labels; induction rows as [|r rows IH]; intros [|l labels];
    simpl; auto.
  rewrite IH. unfold labeled, set_sentiment_score, set_sentiment. simpl.
  now rewrite score_dict_lookup.
Qed.

Section ClassifierFacts.

Variable matrix : Type.
Variable vectorizer_transform : list string -> result matrix.
Variable model_predict : matrix -> result (list string).

Local Abbreviation process :=
  (process_reviews matrix vectorizer_transform model_predict).

(** What a call does when the vectorizer and the model answer with one
    label per row. *)
Lemma process_reviews_run (df : loc) (σ : gmap loc frame) (rows : frame)
    (X : matrix) (labels : list string) :
  σ !! df = Some rows ->
  vectorizer_transform (map reviews_text rows) = inr X ->
  model_predict X = inr labels ->
  length labels = length rows ->
  process df σ = inr (df, <[df := zip_with labeled rows labels]> σ).
Proof.
  intros Hdf HX HL Hlen. unfold process_reviews, getitem, setitem.
  rewrite Hdf. cbn [bind ret]. rewrite HX. cbn [bind]. rewrite HL.
  cbn [bind]. rewrite Hlen, Nat.eqb_refl. cbn [bind ret].
  rewrite lookup_insert_eq. cbn [bind ret].
  unfold series_map at 1. rewrite !length_map, Nat.eqb_refl. cbn [bind ret].
  now rewrite insert_insert_eq, zip_with_scores.
Qed.

(** A call that returns has gone that way. *)
Lemma process_reviews_inv (df df' : loc) (σ σ' : gmap loc frame) :
  process df σ = inr (df', σ') ->
  exists rows X labels,
    σ !! df = Some rows /\
    vectorizer_transform (map reviews_text rows) = inr X /\
    model_predict X = inr labels /\
    length labels = length rows.
Proof.
  unfold process_reviews, getitem, setitem.
  destruct (σ !! df) as [rows|] eqn:Hdf; [ | discriminate ].
  cbn [bind ret].
  destruct (vectorizer_transform _) as [|X] eqn:HX; [ discriminate | ].
  cbn [bind].
  destruct (model_predict X) as [|labels] eqn:HL; [ discriminate | ].
  cbn [bind].
  destruct (Nat.eqb_spec (length labels) (length rows)) as [Hlen|];
    [ | discriminate ].
  intros _. eauto 10.
Qed.

(** C2, amended: when the vectorizer and the model answer with one label
    per row, [process_reviews] returns without raising, whatever the labels
    are; every row gets its label and, as [sentiment_score], the fixed
    mapping positive:2, neutral:1, negative:0 of that label, a value in
    {0, 1, 2}; a label outside the three gets a missing score. *)
Theorem process_reviews_scores (df : loc) (σ : gmap loc frame)
    (rows : frame) (X : matrix) (labels : list string) :
  σ !! df = Some rows ->
  vectorizer_transform (map reviews_text rows) = inr X ->
  model_predict X = inr labels ->
  length labels = length rows ->
  exists σ' rows',
    process df σ = inr (df, σ') /\
    σ' !! df = Some rows' /\
    Forall2
      (fun l r' =>
         sentiment r' = Some l /\
         sentiment_score r' = score_of_label l /\
         match sentiment_score r' with
         | Some z => (0 <= z <= 2)%Z
                     /\ In l ["positive"; "neutral"; "negative"]
         | None => ~ In l ["positive"; "neutral"; "negative"]
         end)
      labels rows'.
Proof.
  intros Hdf HX HL Hlen.
  exists (<[df := zip_with labeled rows labels]> σ), (zip_with labeled rows labels).
  split; [ now apply process_reviews_run with X | ].
  split; [ apply lookup_insert_eq | ].
  clear -Hlen. revert labels Hlen.
  induction rows as [|r rows IH]; intros [|l labels]; simpl; try easy.
  intros [= Hlen]. constructor; auto.
  repeat split. cbn [labeled sentiment_score]. unfold score_of_label.
  repeat match goal with
  | |- context [String.eqb ?a ?b] =>
      destruct (String.eqb_spec a b); subst
  end; simpl; try (split; [ lia | tauto ]).
  intuition congruence.
Qed.

(** C8, amended: a call of [process_reviews] that returns has updated the
    caller's table in place and returns the reference it was given; the
    table has as many rows as before, each with its text, product and
    category unchanged and with a label and the score of that label; every
    other object of the store is unchanged. *)
Theorem process_reviews_in_place (df df' : loc) (σ σ' : gmap loc frame) :
  process df σ = inr (df', σ') ->
  df' = df
  /\ (forall l, l <> df -> σ' !! l = σ !! l)
  /\ exists rows rows',
       σ !! df = Some rows /\ σ' !! df = Some rows' /\
       Forall2
         (fun r r' =>
            reviews_text r' = reviews_text r /\ name r' = name r /\
            cluster_name r' = cluster_name r /\
            exists l, sentiment r' = Some l /\
                      sentiment_score r' = score_dict !! l)
         rows rows'.
Proof.
  intros H.
  destruct (process_reviews_inv _ _ _ _ H)
    as (rows & X & labels & Hdf & HX & HL & Hlen).
  rewrite (process_reviews_run _ _ rows X labels) in H by assumption.
  injection H as <- <-.
  split; [ reflexivity | split ].
  - intros l Hl. now rewrite lookup_insert_ne.
  - exists rows, (zip_with labeled rows labels).
    split; [ assumption | split; [ apply lookup_insert_eq | ] ].
    clear -Hlen. revert labels Hlen.
    induction rows as [|r rows IH]; intros [|l labels]; simpl; try easy.
    intros [= Hlen]. constructor; auto.
    repeat split. exists l. now rewrite score_dict_lookup.
Qed.

End ClassifierFacts.

Lemma process_reviews_scores_witness :
  exists σ' rows',
    process_reviews (list string) transform_id predict_positive 1%positive
      {[ 1%positive := one_review ]} = inr (1%positive, σ') /\
    σ' !! 1%positive = Some rows' /\
    Forall2
      (fun l r' =>
         sentiment r' = Some l /\
         sentiment_score r' = score_of_label l /\
         match sentiment_score r' with
         | Some z => (0 <= z <= 2)%Z
                     /\ In l ["positive"; "neutral"; "negative"]
         | None => ~ In l ["positive"; "neutral"; "negative"]
         end)
      ["positive"] rows'.
Proof.
  apply (process_reviews_scores (list string) transform_id predict_positive
           1%positive {[ 1%positive := one_review ]} one_review
           ["it is a tablet"] ["positive"]); reflexivity.
Defined.

(** C2 as stated fails: a label outside the three expected ones raises
    nothing; [process_reviews] returns, and the row has a missing score. *)
Lemma process_reviews_unknown_label :
  process_reviews (list string) transform_id predict_mixed 1%positive
    {[ 1%positive := one_review ]}
  = inr (1%positive,
         <[ 1%positive :=
              [ Row "it is a tablet" (Some "Fire Tablet") (Some "tablets")
                    (Some "mixed") None ] ]>
           {[ 1%positive := one_review ]}).
Proof.
  now rewrite (process_reviews_run (list string) transform_id predict_mixed
                 1%positive _ one_review ["it is a tablet"] ["mixed"]).
Qed.

(** C8 as stated fails: after the call the caller's table is not what it
    was; the object at the caller's reference has been given the two
    columns. *)
Lemma process_reviews_mutates_input :
  exists σ',
    process_reviews (list string) transform_id predict_positive 1%positive
      {[ 1%positive := one_review ]} = inr (1%positive, σ') /\
    ({[ 1%positive := one_review ]} : gmap loc frame) !! 1%positive
      = Some one_review /\
    σ' !! 1%positive
      = Some [ Row "it is a tablet" (Some "Fire Tablet") (Some "tablets")
                   (Some "positive") (Some 2%Z) ] /\
    σ' !! 1%positive
      <> ({[ 1%positive := one_review ]} : gmap loc frame) !! 1%positive.
Proof.
  eexists. split.
  - now apply (process_reviews_run (list string) transform_id
                 predict_positive 1%positive _ one_review
                 ["it is a tablet"] ["positive"]).
  - rewrite lookup_insert_eq, lookup_singleton_eq.
    repeat split. discriminate.
Qed.

Lemma process_reviews_in_place_witness :
  (1%positive = 1%positive)
  /\ (forall l, l <> 1%positive ->
        (<[ 1%positive := zip_with labeled one_review ["positive"] ]>
           {[ 1%positive := one_review ]} : gmap loc frame) !! l
        = ({[ 1%positive := one_review ]} : gmap loc frame) !! l)
  /\ exists rows rows',
       ({[ 1%positive := one_review ]} : gmap loc frame) !! 1%positive
         = Some rows /\
       (<[ 1%positive := zip_with labeled one_review ["positive"] ]>
          {[ 1%positive := one_review ]} : gmap loc frame) !! 1%positive
         = Some rows' /\
       Forall2
         (fun r r' =>
            reviews_text r' = reviews_text r /\ name r' = name r /\
            cluster_name r' = cluster_name r /\
            exists l, sentiment r' = Some l /\
                      sentiment_score r' = score_dict !! l)
         rows rows'.
Proof.
  apply (process_reviews_in_place (list string) transform_id
           predict_positive).
  now apply (process_reviews_run (list string) transform_id
               predict_positive 1%positive _ one_review
               ["it is a tablet"] ["positive"]).
Defined.

(** ** Means do not depend on the order of the rows *)

Lemma Qplus_swap (a b c : Q) : (a + (b + c) = b + (a + c))%Q.
Proof.
  destruct a as [an ad], b as [bn bd], c as [cn cd].
  unfold Qplus. simpl. f_equal.
  - rewrite !Pos2Z.inj_mul. ring.
  - now rewrite !Pos.mul_assoc, (Pos.mul_comm ad bd).
Qed.

Lemma sum_Q_perm (l l' : list Q) : Permutation l l' -> sum_Q l = sum_Q l'.
Proof.
  induction 1 as [| x l l' _ IH | x y l | l l' l'' _ IH1 _ IH2]; simpl.
  - reflexivity.
  - now rewrite IH.
  - apply Qplus_swap.
  - congruence.
Qed.

Lemma mean_perm (xs ys : list (option Q)) :
  Permutation xs ys -> mean xs = mean ys.
Proof.
  intros H. unfold mean.
  assert (Hv : Permutation (omap id xs) (omap id ys)) by now rewrite H.
  destruct (omap id xs) as [|x vs] eqn:Ex, (omap id ys) as [|y ws] eqn:Ey.
  - reflexivity.
  - apply Permutation_nil in Hv. discriminate.
  - apply Permutation_sym, Permutation_nil in Hv. discriminate.
  - now rewrite (sum_Q_perm _ _ Hv), (Permutation_length Hv).
Qed.

Lemma filter_perm {A} (f : A -> bool) (l l' : list A) :
  Permutation l l' -> Permutation (filter f l) (filter f l').
Proof.
  induction 1 as [| x l l' _ IH | x y l | l l' l'' _ IH1 _ IH2]; simpl.
  - constructor.
  - destruct (f x); auto.
  - destruct (f x), (f y); auto using perm_swap.
  - etransitivity; eauto.
Qed.

Lemma group_scores_perm (df df' : frame) (k : string * string) :
  Permutation df df' ->
  Permutation (group_scores df k) (group_scores df' k).
Proof.
  intros H. unfold group_scores. now apply Permutation_map, filter_perm.
Qed.

Lemma group_keys_sorted (df : frame) :
  StronglySorted (fun a b => pair_ltb a b = true) (group_keys df).
Proof.
  unfold group_keys.
  eapply StronglySorted_impl;
    [ | apply (stable_sort_sorted pair_ltb pair_ltb_asym pair_ltb_negtrans),
          StronglySorted_neq, (unique_NoDup _ pair_eqb_eq) ].
  intros a b [Hba [Hab | Hne]]; auto.
  destruct (pair_ltb a b) eqn:E; auto.
  destruct Hne. now apply pair_ltb_total.
Qed.

Lemma group_keys_perm (df df' : frame) :
  Permutation df df' -> group_keys df = group_keys df'.
Proof.
  intros H.
  apply (sorted_ext (fun a b => pair_ltb a b = true)).
  - intros a Ha. rewrite (pair_ltb_asym _ _ Ha) in Ha. discriminate.
  - intros a b Hab Hba. rewrite (pair_ltb_asym _ _ Hab) in Hba. discriminate.
  - apply group_keys_sorted.
  - apply group_keys_sorted.
  - intros k. rewrite !group_keys_In.
    split; intros (r & Hr & Ek); exists r; split; auto.
    + now apply (Permutation_in r H).
    + now apply (Permutation_in r (Permutation_sym H)).
Qed.

(** C6: the aggregation does not depend on the order of the rows: on a
    permutation of the input, [groupby(...).mean()] yields the same table
    of per-(category, product) averages, and [calculate_average_scores]
    the same rows with the same averages (as a function, it also yields
    the same result whenever it is run again on the same input). *)
Theorem calculate_average_scores_perm (df df' : frame) :
  Permutation df df' ->
  product_scores df = product_scores df'
  /\ (forall k, mean (group_scores df k) = mean (group_scores df' k))
  /\ Permutation (calculate_average_scores df)
                 (calculate_average_scores df').
Proof.
  intros H.
  assert (Hm : forall k, mean (group_scores df k) = mean (group_scores df' k))
    by (intros k; now apply mean_perm, group_scores_perm).
  split; [ | split; [ exact Hm | ] ].
  - unfold product_scores. rewrite (group_keys_perm _ _ H).
    apply map_ext. intros k. now rewrite Hm.
  - rewrite !calculate_average_scores_rows.
    rewrite (list_omap_ext (averaged df) (averaged df') df df).
    + now rewrite H.
    + apply Forall2_same_length_lookup_2; auto.
      intros i r r' Hr Hr'. rewrite Hr in Hr'. injection Hr' as <-.
      unfold averaged. destruct (group_key r); auto. now rewrite Hm.
Qed.

Lemma calculate_average_scores_perm_witness :
  Permutation four_products (rev four_products)
  /\ product_scores four_products = product_scores (rev four_products)
  /\ (forall k, mean (group_scores four_products k)
                = mean (group_scores (rev four_products) k))
  /\ Permutation (calculate_average_scores four_products)
                 (calculate_average_scores (rev four_products)).
Proof.
  split; [ apply Permutation_rev | ].
  apply (calculate_average_scores_perm four_products (rev four_products)).
  apply Permutation_rev.
Defined.

(** ** The reporter's tables *)

Lemma cell_is_iff (a : option string) (s : string) :
  cell_is a s = true <-> a = Some s.
Proof.
  destruct a as [x|]; simpl; [ | split; discriminate ].
  rewrite String.eqb_eq. split; congruence.
Qed.

Lemma category_df_In (df : avg_frame) (c : string) (a : avg_row) :
  In a (category_df df (Some c)) <->
  In a df /\ cluster_name (base a) = Some c.
Proof. simpl. now rewrite filter_In, cell_is_iff. Qed.

Lemma product_names_In (cdf : avg_frame) (p : string) :
  In p (product_names cdf) <-> exists a, In a cdf /\ name (base a) = Some p.
Proof.
  unfold product_names. rewrite stable_sort_In, (unique_In _ String.eqb_eq).
  rewrite <- list_elem_of_In, list_elem_of_omap.
  setoid_rewrite list_elem_of_In. reflexivity.
Qed.

Lemma product_names_NoDup (cdf : avg_frame) : NoDup (product_names cdf).
Proof.
  unfold product_names.
  eapply Permutation_NoDup; [ apply Permutation_sym, stable_sort_perm | ].
  apply (unique_NoDup _ String.eqb_eq).
Qed.


Lemma product_sentiments_names (cdf : avg_frame) :
  map fst (product_sentiments cdf) = product_names cdf.
Proof.
  unfold product_sentiments.
  rewrite map_map. simpl. apply map_id.
Qed.







(** ** The reporter on the aggregator's table *)

Section Reaggregation.

Variable df : frame.
Variable c : string.

Local Abbreviation cdf := (category_df (calculate_average_scores df) (Some c)).








End Reaggregation.


(** ** Selecting the largest and the smallest *)

Lemma larger_asym (a b : string * option Q) :
  larger a b = true -> larger b a = false.
Proof.
  unfold larger. destruct (snd a) as [x|], (snd b) as [y|]; auto.
  rewrite negb_true_iff, negb_false_iff.
  intros H. apply Qle_bool_iff.
  destruct (Qlt_le_dec x y) as [Hlt|Hle]; auto.
  apply Qlt_le_weak, Qle_bool_iff in Hlt. congruence.
Qed.

Lemma larger_ranked (a b : string * option Q) :
  larger b a = false <-> ranked_ge (snd a) (snd b).
Proof.
  unfold larger, ranked_ge. destruct (snd a) as [x|], (snd b) as [y|];
    try (split; (discriminate || tauto || easy)).
  now rewrite negb_false_iff, Qle_bool_iff.
Qed.

Lemma ranked_ge_trans (a b c : option Q) :
  ranked_ge a b -> ranked_ge b c -> ranked_ge a c.
Proof.
  destruct a, b, c; simpl; try tauto. intros. eapply Qle_trans; eauto.
Qed.

Lemma larger_negtrans (x y z : string * option Q) :
  larger y x = false -> larger z y = false -> larger z x = false.
Proof. rewrite !larger_ranked. apply ranked_ge_trans. Qed.

Lemma smaller_asym (a b : string * option Q) :
  smaller a b = true -> smaller b a = false.
Proof.
  unfold smaller. destruct (snd a) as [x|], (snd b) as [y|]; auto.
  rewrite negb_true_iff, negb_false_iff.
  intros H. apply Qle_bool_iff.
  destruct (Qlt_le_dec y x) as [Hlt|Hle]; auto.
  apply Qlt_le_weak, Qle_bool_iff in Hlt. congruence.
Qed.

Lemma smaller_ranked (a b : string * option Q) :
  smaller b a = false <-> ranked_le (snd a) (snd b).
Proof.
  unfold smaller, ranked_le. destruct (snd a) as [x|], (snd b) as [y|];
    try (split; (discriminate || tauto || easy)).
  now rewrite negb_false_iff, Qle_bool_iff.
Qed.

Lemma ranked_le_trans (a b c : option Q) :
  ranked_le a b -> ranked_le b c -> ranked_le a c.
Proof.
  destruct a, b, c; simpl; try tauto. intros. eapply Qle_trans; eauto.
Qed.

Lemma smaller_negtrans (x y z : string * option Q) :
  smaller y x = false -> smaller z y = false -> smaller z x = false.
Proof. rewrite !smaller_ranked. apply ranked_le_trans. Qed.

Lemma same_value_not_larger (a b : string * option Q) :
  same_value (snd a) (snd b) -> larger a b = false.
Proof.
  unfold larger. destruct (snd a), (snd b); simpl; try tauto.
  intros H. apply negb_false_iff, Qle_bool_iff. rewrite H. apply Qle_refl.
Qed.

Lemma same_value_not_smaller (a b : string * option Q) :
  same_value (snd a) (snd b) -> smaller a b = false.
Proof.
  unfold smaller. destruct (snd a), (snd b); simpl; try tauto.
  intros H. apply negb_false_iff, Qle_bool_iff. rewrite H. apply Qle_refl.
Qed.

Lemma StronglySorted_True {A} (l : list A) :
  StronglySorted (fun _ _ => True) l.
Proof.
  induction l; constructor; auto. apply Forall_forall. auto.
Qed.

(** The first [n] rows of a stable sort, followed by the rows left over,
    are the input in sorted order. *)
Lemma selection_sorted {A} (before : A -> A -> bool) (T R : A -> A -> Prop)
    (n : nat) (l : list A) :
  (forall x y, before x y = true -> before y x = false) ->
  (forall x y z, before y x = false -> before z y = false ->
                 before z x = false) ->
  (forall a b, ordered before T a b -> R a b) ->
  StronglySorted T l ->
  exists rest,
    Permutation (firstn n (stable_sort before l) ++ rest) l /\
    StronglySorted R (firstn n (stable_sort before l) ++ rest).
Proof.
  intros Hasym Hneg HR HT. exists (skipn n (stable_sort before l)).
  rewrite firstn_skipn. split; [ apply stable_sort_perm | ].
  eapply StronglySorted_impl; [ exact HR | ].
  now apply stable_sort_sorted.
Qed.


Lemma cell_eqb_eq (a b : option string) : cell_eqb a b = true <-> a = b.
Proof.
  destruct a, b; simpl; rewrite ?String.eqb_eq; split; congruence.
Qed.

Lemma categories_In (df : avg_frame) (c : option string) :
  In c (categories df) <-> exists a, In a df /\ cluster_name (base a) = c.
Proof.
  unfold categories. rewrite (unique_In _ cell_eqb_eq), in_map_iff.
  split; intros (a & H1 & H2); exists a; auto.
Qed.

(** Every category of the aggregator's table is a name, and has a
    product. *)
Lemma aggregated_category (df : frame) (c : option string) :
  In c (categories (calculate_average_scores df)) ->
  exists c' p,
    c = Some c' /\
    In p (product_names (category_df (calculate_average_scores df) c)).
Proof.
  intros (a & Ha & Hc)%categories_In.
  pose proof Ha as Ha'. rewrite calculate_average_scores_rows in Ha'.
  apply averaged_In in Ha' as ([c' p] & _ & [Hc' Hp]%group_key_cells & _).
  exists c', p. split; [ congruence | ].
  apply product_names_In. exists a. split; auto.
  replace c with (Some c') by congruence.
  apply category_df_In. auto.
Qed.

Lemma aggregated_category_products (df : frame) (c : string) :
  In (Some c) (categories (calculate_average_scores df)) ->
  product_sentiments (category_df (calculate_average_scores df) (Some c))
  <> [].
Proof.
  intros (c' & p & _ & Hp)%aggregated_category E.
  rewrite <- product_sentiments_names, E in Hp. exact Hp.
Qed.

(** The row [nsmallest(1, ...)] selects, with the rows it leaves. *)
Lemma nsmallest_1 (T : string * option Q -> string * option Q -> Prop)
    (ps : list (string * option Q)) :
  ps <> [] -> StronglySorted T ps ->
  exists b rest,
    nsmallest 1 ps = [b] /\ bottom_product ps = inr (fst b) /\
    Permutation (b :: rest) ps /\
    Forall (ordered smaller T b) rest.
Proof.
  intros Hne HT.
  pose proof (stable_sort_perm smaller ps) as Hp.
  pose proof (stable_sort_sorted smaller smaller_asym smaller_negtrans
                T ps HT) as HS.
  unfold bottom_product, nsmallest.
  destruct (stable_sort smaller ps) as [|b rest].
  - apply Permutation_nil in Hp. contradiction.
  - exists b, rest. inversion HS; subst. repeat split; auto.
Qed.

(** C4: of any table of per-product means, the top products are the names
    of the first three rows (all, if there are fewer) of the table put in
    descending order of mean score, and, of a non-empty table, the bottom
    product is one whose mean score no other undercuts; every category of
    the aggregator's table has such a non-empty table; for products scored
    A = 2.0, B = 1.5, C = 1.0, D = 0.5 the top three are A, B, C in that
    order and the bottom product is D, and for products scored A = 0.5,
    B = 1.0, C = 1.5, D = 2.0 the top three are D, C, B and the bottom
    product is A. *)
Theorem top3_bottom1 :
  (forall ps : list (string * option Q),
      (exists top rest,
          top_products ps = map fst top /\
          length top = Nat.min 3 (length ps) /\
          Permutation (top ++ rest) ps /\
          StronglySorted (fun a b => ranked_ge (snd a) (snd b))
            (top ++ rest))
      /\ (ps <> [] ->
          exists b rest,
            bottom_product ps = inr (fst b) /\
            Permutation (b :: rest) ps /\
            Forall (fun x => ranked_le (snd b) (snd x)) rest))
  /\ (forall (df : frame) (c : string),
        In (Some c) (categories (calculate_average_scores df)) ->
        product_sentiments
          (category_df (calculate_average_scores df) (Some c)) <> [])
  /\ (let ps :=
        product_sentiments
          (category_df (calculate_average_scores four_products)
             (Some "tablets")) in
      Forall2 (fun pm e => fst pm = fst e /\ same_value (snd pm) (Some (snd e)))
        ps [("A", 2%Q); ("B", (3 # 2)%Q); ("C", 1%Q); ("D", (1 # 2)%Q)]
      /\ top_products ps = ["A"; "B"; "C"]
      /\ bottom_product ps = inr "D")
  /\ (let ps :=
        product_sentiments
          (category_df (calculate_average_scores rising_products)
             (Some "tablets")) in
      Forall2 (fun pm e => fst pm = fst e /\ same_value (snd pm) (Some (snd e)))
        ps [("A", (1 # 2)%Q); ("B", 1%Q); ("C", (3 # 2)%Q); ("D", 2%Q)]
      /\ top_products ps = ["D"; "C"; "B"]
      /\ bottom_product ps = inr "A").
Proof.
  split; [ | split; [ exact aggregated_category_products | split ] ].
  - intros ps. split.
    + destruct (selection_sorted larger (fun _ _ => True)
                  (fun a b => ranked_ge (snd a) (snd b)) 3 ps)
        as (rest & Hperm & Hsorted).
      * exact larger_asym.
      * exact larger_negtrans.
      * intros a b [H _]. now apply larger_ranked.
      * apply StronglySorted_True.
      * exists (nlargest 3 ps), rest. repeat split; auto.
        unfold nlargest.
        now rewrite length_firstn, stable_sort_length.
    + intros Hne.
      destruct (nsmallest_1 (fun _ _ => True) ps Hne
                  (StronglySorted_True ps))
        as (b & rest & _ & Hb & Hp & Hr).
      exists b, rest. repeat split; auto.
      eapply Forall_impl; [ | exact Hr ].
      intros x [H _]. now apply smaller_ranked.
  - vm_compute. repeat split; repeat constructor; discriminate.
  - vm_compute. repeat split; repeat constructor; discriminate.
Qed.

(** C5: in a category whose rows all name one and the same product, the
    top products are that one product alone, and the bottom product is
    that product. *)
Theorem single_product_category (df : avg_frame) (c p : string) :
  (exists a, In a (category_df df (Some c)) /\ name (base a) = Some p) ->
  (forall a q, In a (category_df df (Some c)) ->
               name (base a) = Some q -> q = p) ->
  top_products (product_sentiments (category_df df (Some c))) = [p]
  /\ bottom_product (product_sentiments (category_df df (Some c))) = inr p.
Proof.
  intros Hex Hall.
  assert (E : product_names (category_df df (Some c)) = [p]).
  { pose proof (product_names_NoDup (category_df df (Some c))) as HN.
    apply product_names_In in Hex.
    assert (Hq : forall q, In q (product_names (category_df df (Some c))) ->
                           q = p).
    { intros q (a & Ha & Hn)%product_names_In. eauto. }
    destruct (product_names _) as [|x [|y l]].
    - destruct Hex.
    - f_equal. apply Hq. simpl. auto.
    - exfalso. inversion HN as [|? ? Hx _]; subst. apply Hx.
      rewrite (Hq x), (Hq y); simpl; auto. }
  unfold product_sentiments. rewrite E. split; reflexivity.
Qed.

Lemma single_product_category_witness :
  top_products
    (product_sentiments
       (category_df (calculate_average_scores single_product)
          (Some "speakers"))) = ["Echo Dot"]
  /\ bottom_product
       (product_sentiments
          (category_df (calculate_average_scores single_product)
             (Some "speakers"))) = inr "Echo Dot".
Proof.
  apply (single_product_category
           (calculate_average_scores single_product) "speakers" "Echo Dot").
  - eexists. split; [ left; reflexivity | reflexivity ].
  - vm_compute. intros a q [<- | [<- | []]] [= <-]; reflexivity.
Defined.



(** ** The sample of reviews *)

Lemma isin_In (a : option string) (values : list string) :
  isin a values = true <-> exists p, a = Some p /\ In p values.
Proof.
  destruct a as [x|]; simpl.
  - rewrite existsb_exists. split.
    + intros (y & Hy & ->%String.eqb_eq). eauto.
    + intros (q & [= ->] & Hq). exists q. split; auto.
      apply String.eqb_refl.
  - split; [ discriminate | ]. intros (q & [=] & _).
Qed.

Lemma of_products_In (products : list string) (r : avg_row) :
  of_products products r = true <->
  exists p, name (base r) = Some p /\ In p products.
Proof.
  unfold of_products. destruct (name (base r)) as [x|].
  - destruct (in_dec string_dec x products) as [Hin|Hout]; split; eauto.
    + discriminate.
    + intros (q & [= ->] & Hq). contradiction.
  - split; [ discriminate | ]. intros (q & [=] & _).
Qed.

Lemma isin_of_products (products : list string) (r : avg_row) :
  isin (name (base r)) products = of_products products r.
Proof.
  apply eq_true_iff_eq. now rewrite isin_In, of_products_In.
Qed.

Lemma firstn_filter_reviews (n : nat) (products : list string)
    (table : avg_frame) :
  firstn n (top_reviews table products) = first_reviews n products table.
Proof.
  unfold top_reviews. revert n.
  induction table as [|r table IH]; intros [|n]; simpl; auto;
    rewrite isin_of_products;
    destruct (of_products products r); simpl; auto.
  f_equal. apply IH.
Qed.

(** ** The category loop *)

Section ReporterFacts.

Variable completion_create : nat -> string -> result string.
Variable strip : string -> string.

Local Abbreviation step := (category_step completion_create strip).
Local Abbreviation loop := (category_loop completion_create strip).

(** What the loop body does for a category with a bottom product. *)
Lemma category_step_run (df : avg_frame) (c : option string) (w : world)
    (b : string) :
  let cdf := category_df df c in
  let ps := product_sentiments cdf in
  let top := top_products ps in
  let prompt :=
    prompt_of (format_cell c) top b
      (String.concat " " (firstn 5 (top_reviews cdf top))) in
  let w2 :=
    {| calls := S (calls w);
       log := log w ++ [St_subheader ("Category: " ++ format_cell c);
                        Request prompt] |} in
  bottom_product ps = inr b ->
  step df c w =
  match completion_create (calls w) prompt with
  | inl e => (inl e, w2)
  | inr text =>
      (inr tt, emit (St_markdown "---") (emit (St_write (strip text)) w2))
  end.
Proof.
  intros cdf ps top prompt w2 Hb.
  unfold category_step. fold cdf ps top. rewrite Hb.
  unfold generate_article. fold prompt. cbn [calls log emit].
  subst w2. rewrite <- app_assoc. cbn [app].
  now destruct (completion_create (calls w) prompt).
Qed.

Lemma category_loop_app (df : avg_frame) (pre post : list (option string))
    (w : world) :
  loop df (pre ++ post) w =
  match loop df pre w with
  | (inl e, w') => (inl e, w')
  | (inr _, w') => loop df post w'
  end.
Proof.
  revert w. induction pre as [|c pre IH]; intros w; simpl; auto.
  destruct (step df c w) as [[e|[]] w']; auto.
Qed.

(** Every request is counted, and a category that completes has issued
    exactly one. *)
Lemma category_step_calls (df : avg_frame) (c : option string)
    (w w' : world) :
  step df c w = (inr tt, w') -> calls w' = S (calls w).
Proof.
  unfold category_step, generate_article.
  destruct (bottom_product _); [ discriminate | ].
  destruct (completion_create _ _); [ discriminate | ].
  intros [= <-]. reflexivity.
Qed.

Lemma category_loop_calls (df : avg_frame) (cats : list (option string))
    (w w' : world) :
  loop df cats w = (inr tt, w') -> calls w' = calls w + length cats.
Proof.
  revert w. induction cats as [|c cats IH]; intros w; simpl.
  - intros [= <-]. lia.
  - destruct (step df c w) as [[e|[]] w1] eqn:E; [ discriminate | ].
    intros H. rewrite (IH _ H), (category_step_calls _ _ _ _ E). lia.
Qed.

(** C7: for a category, the reviews handed to the prompt are at most five,
    and are exactly the first (up to) five review texts, in table order,
    of the rows of the category whose product is one of the top products;
    each of them is the text of such a row; the request the loop body
    sends carries them, joined by spaces. *)
Theorem sample_reviews_first_five (df : avg_frame) (c : string) (w : world) :
  let cdf := category_df df (Some c) in
  let top := top_products (product_sentiments cdf) in
  let sample := firstn 5 (top_reviews cdf top) in
  length sample <= 5
  /\ sample = first_reviews 5 top cdf
  /\ (exists taken rest,
        filter (of_products top) cdf = (taken ++ rest)%list /\
        sample = map (fun r => reviews_text (base r)) taken /\
        (rest = [] \/ length taken = 5))
  /\ (forall t, In t sample ->
        exists r p,
          In r cdf /\ reviews_text (base r) = t /\
          name (base r) = Some p /\ In p top)
  /\ (forall b, bottom_product (product_sentiments cdf) = inr b ->
        exists evs,
          log (snd (step df (Some c) w)) =
          (log w ++ St_subheader ("Category: " ++ c)
                 :: Request (prompt_of c top b (String.concat " " sample))
                 :: evs)%list).
Proof.
  intros cdf top sample.
  assert (Hdec : exists taken rest,
             filter (of_products top) cdf = (taken ++ rest)%list /\
             sample = map (fun r => reviews_text (base r)) taken /\
             (rest = [] \/ length taken = 5)).
  { subst sample. unfold top_reviews.
    rewrite (filter_ext (fun r => isin (name (base r)) top)
               (of_products top))
      by (intros r; apply isin_of_products).
    set (l := filter _ cdf).
    exists (firstn 5 l), (skipn 5 l).
    split; [ now rewrite firstn_skipn | split; [ apply firstn_map | ] ].
    destruct (Nat.le_gt_cases (length l) 5) as [Hle|Hgt].
    - left. now apply skipn_all2.
    - right. rewrite length_firstn. lia. }
  split; [ | split; [ | split; [ exact Hdec | split ] ] ].
  - subst sample. rewrite length_firstn. lia.
  - apply firstn_filter_reviews.
  - destruct Hdec as (taken & rest & Hf & -> & _).
    intros t (r & <- & Hr)%in_map_iff.
    assert (Hin : In r (filter (of_products top) cdf))
      by (rewrite Hf; apply in_or_app; auto).
    apply filter_In in Hin as [Hcdf (p & Hp & Htop)%of_products_In].
    exists r, p. auto.
  - intros b Hb. rewrite (category_step_run df (Some c) w b Hb).
    fold cdf top sample. cbn [format_cell].
    destruct (completion_create _ _); cbn [snd log emit].
    + now exists [].
    + eexists. rewrite <- !app_assoc. cbn [app]. reflexivity.
Qed.

Section RunFacts.

Variable matrix : Type.
Variable vectorizer_transform : list string -> result matrix.
Variable model_predict : matrix -> result (list string).

Local Abbreviation click :=
  (on_click completion_create strip matrix vectorizer_transform
     model_predict).

(** C9: when the completion request for a category fails, after the
    categories in front of it have completed, the run ends there: the
    exception leaves [generate_article] and the loop, and the handler shows
    it; the page holds what the earlier categories produced, the heading
    of the failing category and the error; exactly one request has been
    issued for the failing category (one per category so far, none
    repeated), and nothing is requested or shown for the categories
    behind it. *)
Theorem generation_failure_aborts (df df' : loc) (σ σ' : gmap loc frame)
    (rows : frame) (pre post : list (option string)) (c b : string)
    (w w1 : world) (e : exn) :
  let adf := calculate_average_scores rows in
  let cdf := category_df adf (Some c) in
  let top := top_products (product_sentiments cdf) in
  let prompt :=
    prompt_of c top b (String.concat " " (firstn 5 (top_reviews cdf top))) in
  process_reviews matrix vectorizer_transform model_predict df σ
    = inr (df', σ') ->
  σ' !! df' = Some rows ->
  categories adf = (pre ++ Some c :: post)%list ->
  loop adf pre w = (inr tt, w1) ->
  bottom_product (product_sentiments cdf) = inr b ->
  completion_create (calls w1) prompt = inl e ->
  click true df σ w =
    {| calls := S (calls w1);
       log := log w1 ++ [ St_subheader ("Category: " ++ c);
                          Request prompt;
                          St_error ("Error: " ++ str_exn e) ] |}
  /\ calls w1 = calls w + length pre.
Proof.
  intros adf cdf top prompt Hp Hrows Hcats Hpre Hb He.
  split; [ | now apply category_loop_calls with adf ].
  unfold on_click, try_block. rewrite Hp, Hrows. fold adf.
  rewrite Hcats, category_loop_app, Hpre.
  cbn [category_loop].
  rewrite (category_step_run adf (Some c) w1 b Hb).
  fold cdf top. cbn [format_cell]. fold prompt. rewrite He.
  unfold emit. cbn [calls log]. now rewrite <- app_assoc.
Qed.

End RunFacts.

End ReporterFacts.

Lemma generation_failure_aborts_witness :
  let σ : gmap loc frame := {[ 1%positive := two_categories ]} in
  let rows := zip_with labeled two_categories
                ["positive"; "positive"; "positive"] in
  let adf := calculate_average_scores rows in
  let cdf := category_df adf (Some "speakers") in
  let top := top_products (product_sentiments cdf) in
  let prompt :=
    prompt_of "speakers" top "Echo Dot"
      (String.concat " " (firstn 5 (top_reviews cdf top))) in
  let w := {| calls := 0; log := [] |} in
  let w1 := snd (category_loop quota_of_one id adf [Some "tablets"] w) in
  on_click quota_of_one id (list string) transform_id predict_positive
    true 1%positive σ w =
    {| calls := S (calls w1);
       log := log w1 ++ [ St_subheader ("Category: " ++ "speakers");
                          Request prompt;
                          St_error ("Error: " ++ str_exn
                            (ExternalError "You exceeded your current quota"))
                        ] |}
  /\ calls w1 = calls w + length [Some "tablets"].
Proof.
  intros σ rows adf cdf top prompt w w1.
  apply (generation_failure_aborts quota_of_one id (list string)
           transform_id predict_positive 1%positive 1%positive σ
           (<[ 1%positive := rows ]> σ) rows [Some "tablets"] []
           "speakers" "Echo Dot" w w1
           (ExternalError "You exceeded your current quota")).
  - now apply (process_reviews_run (list string) transform_id
                 predict_positive 1%positive σ two_categories
                 ["bright screen"; "good sound"; "fast enough"]
                 ["positive"; "positive"; "positive"]).
  - reflexivity.
  - reflexivity.
  - reflexivity.
  - reflexivity.
  - reflexivity.
Defined.

(** * Further properties of the code *)

(** ** The classifier: failures, and running it again *)

Lemma zip_with_labeled_texts (rows : frame) (labels : list string) :
  length labels = length rows ->
  map reviews_text (zip_with labeled rows labels) = map reviews_text rows.
Proof.
  revert labels. induction rows as [|r rows IH]; intros [|l labels];
    simpl; try easy.
  intros [= H]. now rewrite IH.
Qed.

Lemma zip_with_labeled_length (rows : frame) (labels : list string) :
  length labels = length rows ->
  length (zip_with labeled rows labels) = length rows.
Proof.
  revert labels. induction rows as [|r rows IH]; intros [|l labels];
    simpl; try easy.
  intros [= H]. now rewrite IH.
Qed.

Lemma zip_with_labeled_again (rows : frame) (labels : list string) :
  zip_with labeled (zip_with labeled rows labels) labels
  = zip_with labeled rows labels.
Proof.
  revert labels. induction rows as [|r rows IH]; intros [|l labels];
    simpl; try easy.
  now rewrite IH.
Qed.

Section ClassifierMore.

Variable matrix : Type.
Variable vectorizer_transform : list string -> result matrix.
Variable model_predict : matrix -> result (list string).

Local Abbreviation process :=
  (process_reviews matrix vectorizer_transform model_predict).


(** X2: classifying a classified table again changes nothing: a second
    call of [process_reviews] on the table the first call left returns
    with the store as it is. *)
Theorem process_reviews_again (df df' : loc) (σ σ' : gmap loc frame) :
  process_reviews matrix vectorizer_transform model_predict df σ
    = inr (df', σ') ->
  process_reviews matrix vectorizer_transform model_predict df' σ'
    = inr (df', σ').
Proof.
  intros H.
  destruct (process_reviews_inv _ _ _ _ _ _ _ H)
    as (rows & X & labels & Hdf & HX & HL & Hlen).
  rewrite (process_reviews_run _ _ _ _ _ rows X labels) in H by assumption.
  injection H as <- <-.
  rewrite (process_reviews_run _ _ _ df _ (zip_with labeled rows labels)
             X labels).
  - now rewrite insert_insert_eq, zip_with_labeled_again.
  - apply lookup_insert_eq.
  - now rewrite zip_with_labeled_texts.
  - assumption.
  - now rewrite zip_with_labeled_length.
Qed.

End ClassifierMore.


Lemma process_reviews_again_witness :
  process_reviews (list string) transform_id predict_positive 1%positive
    (<[ 1%positive := zip_with labeled one_review ["positive"] ]>
       {[ 1%positive := one_review ]})
  = inr (1%positive,
         <[ 1%positive := zip_with labeled one_review ["positive"] ]>
           {[ 1%positive := one_review ]}).
Proof.
  apply (process_reviews_again (list string) transform_id predict_positive
           1%positive 1%positive {[ 1%positive := one_review ]}).
  now apply (process_reviews_run (list string) transform_id
               predict_positive 1%positive _ one_review
               ["it is a tablet"] ["positive"]).
Defined.

(** ** The aggregator: bounds, missing averages, row count *)

Lemma sum_Q_within (lo hi : Q) (vs : list Q) :
  Forall (fun q => lo <= q /\ q <= hi)%Q vs ->
  (inject_Z (Z.of_nat (length vs)) * lo <= sum_Q vs /\
   sum_Q vs <= inject_Z (Z.of_nat (length vs)) * hi)%Q.
Proof.
  induction 1 as [|q vs [Hlo Hhi] _ [IHlo IHhi]].
  - simpl. split; apply Qle_lteq; right; ring.
  - cbn [length sum_Q fold_right]. fold (sum_Q vs).
    rewrite Nat2Z.inj_succ. unfold Z.succ. rewrite inject_Z_plus.
    split.
    + setoid_replace ((inject_Z (Z.of_nat (length vs)) + inject_Z 1) * lo)%Q
        with (lo + inject_Z (Z.of_nat (length vs)) * lo)%Q
        using relation Qeq by ring.
      now apply Qplus_le_compat.
    + setoid_replace ((inject_Z (Z.of_nat (length vs)) + inject_Z 1) * hi)%Q
        with (hi + inject_Z (Z.of_nat (length vs)) * hi)%Q
        using relation Qeq by ring.
      now apply Qplus_le_compat.
Qed.

Lemma dropna_within (lo hi : Q) (xs : list (option Q)) :
  Forall (within lo hi) xs ->
  Forall (fun q => lo <= q /\ q <= hi)%Q (omap id xs).
Proof.
  induction 1 as [|[q|] xs Hx _ IH]; cbn [omap list_omap]; simpl; auto.
Qed.

(** The mean of a column lies between the bounds of its values. *)
Lemma mean_within (lo hi : Q) (xs : list (option Q)) :
  Forall (within lo hi) xs -> within lo hi (mean xs).
Proof.
  intros H%dropna_within. unfold mean.
  destruct (omap id xs) as [|v vs] eqn:E; [ exact I | ].
  apply sum_Q_within in H as [Hlo Hhi].
  set (n := inject_Z (Z.of_nat (length (v :: vs)))) in *.
  assert (Hn : (0 < n)%Q).
  { subst n. unfold Qlt. simpl. lia. }
  simpl. split.
  - apply Qle_shift_div_l; auto. now rewrite Qmult_comm.
  - apply Qle_shift_div_r; auto. now rewrite Qmult_comm.
Qed.

Lemma mean_None_iff (xs : list (option Q)) :
  mean xs = None <-> Forall (eq None) xs.
Proof.
  unfold mean. induction xs as [|[q|] xs IH]; cbn [omap list_omap]; simpl.
  - split; auto.
  - split; [ discriminate | ]. intros H. inversion H. discriminate.
  - destruct (omap id xs) eqn:E.
    + split; auto. intros _. constructor; auto. now apply IH.
    + split; [ discriminate | ]. intros H. inversion H. now apply IH.
Qed.

Lemma calculate_average_scores_In (df : frame) (a : avg_row) :
  In a (calculate_average_scores df) <->
  exists k, In (base a) df /\ group_key (base a) = Some k /\
            sentiment_score_avg a = mean (group_scores df k).
Proof. rewrite calculate_average_scores_rows. apply averaged_In. Qed.

Lemma group_scores_within (lo hi : Q) (df : frame) (k : string * string) :
  (forall r, In r df -> within lo hi (score_Q r)) ->
  Forall (within lo hi) (group_scores df k).
Proof.
  intros H. apply Forall_forall.
  intros x (r & <- & [Hr _]%filter_In)%in_map_iff. auto.
Qed.

(** X3: averages stay within the bounds of the scores: when every score of
    the table that is not missing lies between [lo] and [hi], so does every
    [sentiment_score_avg] that is not missing. *)
Theorem averages_within (lo hi : Q) (df : frame) :
  (forall r, In r df -> within lo hi (score_Q r)) ->
  forall a, In a (calculate_average_scores df) ->
            within lo hi (sentiment_score_avg a).
Proof.
  intros H a (k & _ & _ & ->)%calculate_average_scores_In.
  now apply mean_within, group_scores_within.
Qed.

Lemma four_products_scores :
  forall r, In r four_products -> within 0 2 (score_Q r).
Proof.
  intros r Hr. simpl in Hr.
  repeat (destruct Hr as [<- | Hr]; [ vm_compute; intuition discriminate | ]).
  destruct Hr.
Defined.

Lemma averages_within_witness :
  (forall r, In r four_products -> within 0 2 (score_Q r))
  /\ (forall a, In a (calculate_average_scores four_products) ->
                within 0 2 (sentiment_score_avg a)).
Proof.
  split; [ exact four_products_scores | ].
  apply (averages_within 0 2 four_products). exact four_products_scores.
Defined.

(** X4: a row's [sentiment_score_avg] is missing exactly when every review
    of its (category, product) group has a missing score. *)
Theorem average_missing (df : frame) (a : avg_row) :
  In a (calculate_average_scores df) ->
  sentiment_score_avg a = None <->
  forall r, In r df -> group_key r = group_key (base a) ->
            sentiment_score r = None.
Proof.
  intros (k & _ & Ek & ->)%calculate_average_scores_In.
  rewrite mean_None_iff, Ek. unfold group_scores.
  rewrite Forall_forall. split.
  - intros H r Hr Hk.
    assert (E : None = score_Q r).
    { apply H, in_map, filter_In. split; auto.
      unfold has_key. rewrite Hk. now apply pair_eqb_eq. }
    unfold score_Q in E. now destruct (sentiment_score r).
  - intros H x (r & <- & [Hr Hk]%filter_In)%in_map_iff.
    unfold has_key in Hk. destruct (group_key r) as [k'|] eqn:Ek';
      [ | discriminate ].
    apply pair_eqb_eq in Hk. subst k'.
    unfold score_Q. now rewrite (H r Hr Ek').
Qed.

Lemma average_missing_witness :
  sentiment_score_avg (AvgRow (hd (review "" "" "" 0) unknown_only) None)
    = None <->
  forall r, In r unknown_only ->
            group_key r
            = group_key
                (base (AvgRow (hd (review "" "" "" 0) unknown_only) None)) ->
            sentiment_score r = None.
Proof.
  apply (average_missing unknown_only). left. reflexivity.
Defined.

Lemma filter_length_all {A} (f : A -> bool) (l : list A) :
  length (filter f l) = length l <-> forall x, In x l -> f x = true.
Proof.
  induction l as [|x l IH]; simpl; [ tauto | ].
  pose proof (filter_length_le f l) as Hle.
  destruct (f x) eqn:E; simpl.
  - rewrite Nat.succ_inj_wd, IH. split.
    + intros H y [<- | Hy]; auto.
    + auto.
  - split; [ lia | ]. intros H. rewrite H in E; auto. discriminate.
Qed.

(** X5: the aggregator never adds a row, and it keeps the row count
    exactly when every row of the input has both its category and its
    product name. *)
Theorem row_count_kept (df : frame) :
  length (calculate_average_scores df) <= length df
  /\ (length (calculate_average_scores df) = length df <->
      forall r, In r df -> cluster_name r <> None /\ name r <> None).
Proof.
  rewrite calculate_average_scores_rows, <- (length_map base), averaged_base.
  split; [ apply filter_length_le | ].
  rewrite filter_length_all. unfold keyed, group_key.
  split; intros H r Hr; specialize (H r Hr);
    destruct (cluster_name r), (name r); intuition congruence.
Qed.

Lemma score_of_label_within (l : string) :
  within 0 2 (option_map inject_Z (score_of_label l)).
Proof.
  unfold score_of_label.
  repeat match goal with
  | |- context [String.eqb ?a ?b] => destruct (String.eqb a b)
  end; vm_compute; intuition discriminate.
Qed.

Lemma zip_with_labeled_In (rows : frame) (labels : list string) (r : row) :
  In r (zip_with labeled rows labels) ->
  exists l, sentiment_score r = score_of_label l.
Proof.
  revert labels. induction rows as [|r0 rows IH]; intros [|l labels];
    simpl; try easy.
  intros [<- | H]; eauto.
Qed.

Section ClassifiedAverages.

Variable matrix : Type.
Variable vectorizer_transform : list string -> result matrix.
Variable model_predict : matrix -> result (list string).

(** What a call that returns leaves at the caller's reference. *)
Lemma process_reviews_table (df df' : loc) (σ σ' : gmap loc frame)
    (rows' : frame) :
  process_reviews matrix vectorizer_transform model_predict df σ
    = inr (df', σ') ->
  σ' !! df' = Some rows' ->
  exists rows labels,
    σ !! df = Some rows /\ length labels = length rows /\
    rows' = zip_with labeled rows labels.
Proof.
  intros H Hrows.
  destruct (process_reviews_inv _ _ _ _ _ _ _ H)
    as (rows & X & labels & Hdf & HX & HL & Hlen).
  rewrite (process_reviews_run _ _ _ _ _ rows X labels) in H by assumption.
  injection H as <- <-. rewrite lookup_insert_eq in Hrows.
  injection Hrows as <-. eauto.
Qed.

(** X6: after the classifier, the aggregator's averages lie between 0 and
    2: whatever the model answers, every [sentiment_score_avg] of the
    table made from a classified table is missing or in the interval
    [0, 2]. *)
Theorem classified_averages_within (df df' : loc) (σ σ' : gmap loc frame)
    (rows' : frame) :
  process_reviews matrix vectorizer_transform model_predict df σ
    = inr (df', σ') ->
  σ' !! df' = Some rows' ->
  forall a, In a (calculate_average_scores rows') ->
            within 0 2 (sentiment_score_avg a).
Proof.
  intros H Hrows a (k & _ & _ & ->)%calculate_average_scores_In.
  destruct (process_reviews_table _ _ _ _ _ H Hrows)
    as (rows & labels & _ & _ & ->).
  apply mean_within, group_scores_within.
  intros r (l & E)%zip_with_labeled_In.
  unfold score_Q. rewrite E. apply score_of_label_within.
Qed.

End ClassifiedAverages.

Lemma classified_averages_within_witness :
  process_reviews (list string) transform_id predict_mixed 1%positive
    {[ 1%positive := one_review ]}
  = inr (1%positive,
         <[ 1%positive := zip_with labeled one_review ["mixed"] ]>
           {[ 1%positive := one_review ]})
  /\ (forall a,
        In a (calculate_average_scores
                (zip_with labeled one_review ["mixed"])) ->
        within 0 2 (sentiment_score_avg a)).
Proof.
  assert (H : process_reviews (list string) transform_id predict_mixed
                1%positive {[ 1%positive := one_review ]}
              = inr (1%positive,
                     <[ 1%positive := zip_with labeled one_review ["mixed"] ]>
                       {[ 1%positive := one_review ]}))
    by now apply (process_reviews_run (list string) transform_id
                    predict_mixed 1%positive _ one_review
                    ["it is a tablet"] ["mixed"]).
  split; [ exact H | ].
  apply (classified_averages_within (list string) transform_id predict_mixed
           1%positive 1%positive {[ 1%positive := one_review ]}
           (<[ 1%positive := zip_with labeled one_review ["mixed"] ]>
              {[ 1%positive := one_review ]})).
  - exact H.
  - reflexivity.
Defined.

(** ** The selections: which products they name *)

Lemma firstn_incl {A} (n : nat) (l : list A) (x : A) :
  In x (firstn n l) -> In x l.
Proof.
  intros H. rewrite <- (firstn_skipn n l). apply in_or_app. auto.
Qed.

Lemma firstn_NoDup {A} (n : nat) (l : list A) :
  NoDup l -> NoDup (firstn n l).
Proof.
  intros H. rewrite <- (firstn_skipn n l) in H.
  now apply NoDup_app_remove_r in H.
Qed.

Lemma sorted_names (before : string * option Q -> string * option Q -> bool)
    (cdf : avg_frame) :
  Permutation (map fst (stable_sort before (product_sentiments cdf)))
              (product_names cdf).
Proof.
  rewrite <- product_sentiments_names.
  apply Permutation_map, stable_sort_perm.
Qed.

Lemma top_products_names (ps : list (string * option Q)) :
  top_products ps = firstn 3 (map fst (stable_sort larger ps)).
Proof. unfold top_products, nlargest. symmetry. apply firstn_map. Qed.

Lemma bottom_product_head (ps : list (string * option Q)) :
  bottom_product ps =
  match map fst (stable_sort smaller ps) with
  | p :: _ => inr p
  | [] => inl (IndexError "single positional indexer is out-of-bounds")
  end.
Proof.
  unfold bottom_product, nsmallest.
  now destruct (stable_sort smaller ps) as [|[p m] [|y l]].
Qed.

(** X7: the selections name products of the table: the top products are
    distinct and each is the product of some row; so is the bottom product
    when there is one; and [bottom_product] raises ([IndexError]) exactly
    when no row of the table names a product. *)
Theorem selections_are_products (cdf : avg_frame) :
  let ps := product_sentiments cdf in
  NoDup (top_products ps)
  /\ (forall p, In p (top_products ps) ->
                exists a, In a cdf /\ name (base a) = Some p)
  /\ (forall b, bottom_product ps = inr b ->
                exists a, In a cdf /\ name (base a) = Some b)
  /\ ((exists e, bottom_product ps = inl e) <->
      forall a, In a cdf -> name (base a) = None).
Proof.
  intros ps. subst ps.
  pose proof (sorted_names larger cdf) as Hl.
  pose proof (sorted_names smaller cdf) as Hs.
  rewrite top_products_names, bottom_product_head.
  split; [ | split; [ | split ] ].
  - apply firstn_NoDup.
    eapply Permutation_NoDup;
      [ apply Permutation_sym, Hl | apply product_names_NoDup ].
  - intros p Hp%firstn_incl. apply product_names_In.
    now apply (Permutation_in p Hl).
  - intros b Hb. apply product_names_In, (Permutation_in b Hs).
    revert Hb.
    generalize (map fst (stable_sort smaller (product_sentiments cdf))).
    intros [|p l]; simpl; [ intros [=] | intros [= ->]; now left ].
  - destruct (map fst (stable_sort smaller (product_sentiments cdf)))
      as [|p l] eqn:E.
    + apply Permutation_nil in Hs. split.
      * intros _ a Ha. destruct (name (base a)) as [q|] eqn:En; auto.
        assert (In q (product_names cdf))
          by (apply product_names_In; eauto).
        rewrite Hs in H. destruct H.
      * eauto.
    + split; [ intros [e He]; discriminate He | ].
      intros Hnone.
      assert (Hp : In p (product_names cdf))
        by (apply (Permutation_in p Hs); now left).
      apply product_names_In in Hp as (a & Ha & Hn).
      rewrite (Hnone a Ha) in Hn. discriminate.
Qed.

(** X8: in a category with at most three products every product is a top
    product, so the bottom product, the one the article is told to advise
    against, is among the top products as well. *)
Theorem few_products_bottom_in_top (cdf : avg_frame) :
  length (product_names cdf) <= 3 ->
  let ps := product_sentiments cdf in
  Permutation (top_products ps) (product_names cdf)
  /\ (forall b, bottom_product ps = inr b -> In b (top_products ps)).
Proof.
  intros Hlen ps. subst ps.
  pose proof (sorted_names larger cdf) as Hl.
  pose proof (sorted_names smaller cdf) as Hs.
  rewrite top_products_names, bottom_product_head.
  rewrite firstn_all2 by (rewrite (Permutation_length Hl); exact Hlen).
  split; [ exact Hl | ].
  intros b Hb.
  apply (Permutation_in b (Permutation_sym Hl)), (Permutation_in b Hs).
  revert Hb.
  generalize (map fst (stable_sort smaller (product_sentiments cdf))).
  intros [|p l]; simpl; [ intros [=] | intros [= ->]; now left ].
Qed.

Lemma few_products_bottom_in_top_witness :
  let cdf := category_df (calculate_average_scores tied_products)
               (Some "readers") in
  let ps := product_sentiments cdf in
  length (product_names cdf) <= 3
  /\ Permutation (top_products ps) (product_names cdf)
  /\ (forall b, bottom_product ps = inr b -> In b (top_products ps)).
Proof.
  intros cdf ps.
  assert (H : length (product_names cdf) <= 3) by (vm_compute; lia).
  split; [ exact H | ].
  exact (few_products_bottom_in_top cdf H).
Defined.

Lemma stable_sort_untouched {A} (before : A -> A -> bool) (l : list A) :
  (forall x y, In x l -> In y l -> before x y = false) ->
  stable_sort before l = l.
Proof.
  induction l as [|x l IH]; intros H; [ reflexivity | ].
  unfold stable_sort in *. cbn [fold_right].
  rewrite IH by (intros; apply H; simpl; auto).
  destruct l as [|y l]; [ reflexivity | ].
  cbn [insert_by]. now rewrite H by (simpl; auto).
Qed.

(** X9: when all products of a category have the same mean in the
    reporter's table (its binary64 means), the top products are the first
    three names in lexicographic order and the bottom product is the first
    of them: the product the article advises against is then the product
    it lists first. *)
Theorem all_tied_bottom_is_first (cdf : avg_frame) :
  let ps := product_sentiments cdf in
  (forall x y, In x ps -> In y ps -> same_value (snd x) (snd y)) ->
  top_products ps = firstn 3 (product_names cdf)
  /\ bottom_product ps =
     match product_names cdf with
     | p :: _ => inr p
     | [] => inl (IndexError "single positional indexer is out-of-bounds")
     end.
Proof.
  intros ps Htie. subst ps.
  rewrite top_products_names, bottom_product_head.
  rewrite !stable_sort_untouched, product_sentiments_names; auto.
  - intros x y Hx Hy. now apply same_value_not_smaller, Htie.
  - intros x y Hx Hy. now apply same_value_not_larger, Htie.
Qed.

Lemma all_tied_means :
  let ps := product_sentiments
              (category_df (calculate_average_scores all_tied)
                 (Some "cables")) in
  forall x y, In x ps -> In y ps -> same_value (snd x) (snd y).
Proof.
  vm_compute.
  intros x y Hx Hy.
  repeat (destruct Hx as [<- | Hx]; [ | ]); try destruct Hx;
    repeat (destruct Hy as [<- | Hy]; [ | ]); try destruct Hy;
    reflexivity.
Defined.

Lemma all_tied_bottom_is_first_witness :
  let cdf := category_df (calculate_average_scores all_tied)
               (Some "cables") in
  let ps := product_sentiments cdf in
  top_products ps = ["A"; "B"; "C"] /\ bottom_product ps = inr "A".
Proof.
  exact (all_tied_bottom_is_first
           (category_df (calculate_average_scores all_tied) (Some "cables"))
           all_tied_means).
Defined.

(** ** The loop and the page *)

Section LoopMore.

Variable completion_create : nat -> string -> result string.
Variable strip : string -> string.

Local Abbreviation step := (category_step completion_create strip).
Local Abbreviation loop := (category_loop completion_create strip).

(** What one pass of the loop body adds to the page. *)
Lemma category_step_events (df : avg_frame) (c : option string)
    (w w' : world) (r : result unit) :
  step df c w = (r, w') ->
  exists evs,
    log w' = (log w ++ evs)%list /\ Forall loop_event evs /\
    calls w' = calls w + length (filter is_request evs) /\
    calls w' <= S (calls w).
Proof.
  unfold category_step, generate_article.
  destruct (bottom_product _) as [e|b].
  - intros [= <- <-]. eexists [_]. split; [ reflexivity | ].
    simpl. repeat split; auto; try lia. repeat constructor.
  - destruct (completion_create _ _) as [e|text]; intros [= <- <-].
    + eexists [_; _]. split; [ cbn; now rewrite <- app_assoc | ].
      simpl. repeat split; auto; try lia. repeat constructor.
    + eexists [_; _; _; _].
      split; [ cbn; now rewrite <- !app_assoc | ].
      simpl. repeat split; auto; try lia. repeat constructor.
Qed.

Lemma category_loop_events (df : avg_frame) (cats : list (option string))
    (w w' : world) (r : result unit) :
  loop df cats w = (r, w') ->
  exists evs,
    log w' = (log w ++ evs)%list /\ Forall loop_event evs /\
    calls w' = calls w + length (filter is_request evs) /\
    calls w' <= calls w + length cats.
Proof.
  revert w. induction cats as [|c cats IH]; intros w; simpl.
  - intros [= <- <-]. exists []. rewrite app_nil_r. simpl.
    repeat split; auto; lia.
  - destruct (step df c w) as [[e|[]] w1] eqn:E.
    + intros [= <- <-].
      apply category_step_events in E as (evs & ? & ? & ? & ?).
      exists evs. repeat split; auto. lia.
    + intros H. apply IH in H as (evs2 & H2 & F2 & C2 & L2).
      apply category_step_events in E as (evs1 & H1 & F1 & C1 & L1).
      exists (evs1 ++ evs2)%list. repeat split.
      * now rewrite H2, H1, app_assoc.
      * now apply Forall_app.
      * rewrite filter_app, length_app. lia.
      * lia.
Qed.

(** A failure of the loop on categories that all have a bottom product is
    the failure of its last request. *)
Lemma category_loop_failure (df : avg_frame) (cats : list (option string))
    (w w' : world) (e : exn) :
  (forall c, In c cats ->
     exists b,
       bottom_product (product_sentiments (category_df df c)) = inr b) ->
  loop df cats w = (inl e, w') ->
  exists prompt, completion_create (pred (calls w')) prompt = inl e.
Proof.
  revert w. induction cats as [|c cats IH]; intros w Hb; simpl.
  - discriminate.
  - destruct (Hb c (or_introl eq_refl)) as [b Hc].
    rewrite (category_step_run completion_create strip df c w b Hc).
    destruct (completion_create (calls w) _) as [e'|text] eqn:E.
    + intros [= <- <-]. simpl. eauto.
    + apply IH. intros c' Hc'. apply Hb. now right.
Qed.

(** With a service that answers, the loop over such categories runs
    through: one request and four events per category. *)
Lemma category_loop_success (df : avg_frame) (cats : list (option string))
    (w : world) :
  (forall n prompt, exists text, completion_create n prompt = inr text) ->
  (forall c, In c cats ->
     exists b,
       bottom_product (product_sentiments (category_df df c)) = inr b) ->
  exists w',
    loop df cats w = (inr tt, w') /\
    calls w' = calls w + length cats /\
    exists evs,
      log w' = (log w ++ evs)%list /\ Forall loop_event evs /\
      length evs = 4 * length cats.
Proof.
  intros Hok. revert w. induction cats as [|c cats IH]; intros w Hb; simpl.
  - exists w. repeat split; auto. exists []. rewrite app_nil_r. auto.
  - destruct (Hb c (or_introl eq_refl)) as [b Hc].
    rewrite (category_step_run completion_create strip df c w b Hc).
    destruct (Hok (calls w)
                (prompt_of (format_cell c)
                   (top_products (product_sentiments (category_df df c))) b
                   (String.concat " "
                      (firstn 5
                         (top_reviews (category_df df c)
                            (top_products
                               (product_sentiments (category_df df c))))))))
      as [text ->].
    edestruct IH as (w' & Hl & Hcalls & evs & Hlog & Hev & Hlen);
      [ intros c' Hc'; apply Hb; now right | ].
    exists w'. split; [ exact Hl | ]. split.
    + rewrite Hcalls. cbn. lia.
    + eexists (_ :: _ :: _ :: _ :: evs). rewrite Hlog. cbn.
      rewrite <- !app_assoc. cbn. repeat split.
      * repeat constructor. exact Hev.
      * cbn. lia.
Qed.

(** Every category of the aggregator's table has a bottom product. *)
Lemma aggregated_bottom (rows : frame) (c : option string) :
  In c (categories (calculate_average_scores rows)) ->
  exists b,
    bottom_product
      (product_sentiments
         (category_df (calculate_average_scores rows) c)) = inr b.
Proof.
  intros Hc.
  destruct (aggregated_category rows c Hc) as (c' & p & -> & _).
  destruct (nsmallest_1 (fun _ _ => True) _
              (aggregated_category_products rows c' Hc)
              (StronglySorted_True _))
    as (b & rest & _ & Hb & _).
  eauto.
Qed.

(** X10: on the aggregator's table the loop fails only through the
    completion service: when the loop over the categories of the table
    ends with an exception, that exception is the one the service raised
    at the last request issued; no category makes [bottom_product]
    raise. *)
Theorem loop_fails_by_service (rows : frame) (w w' : world) (e : exn) :
  let adf := calculate_average_scores rows in
  loop adf (categories adf) w = (inl e, w') ->
  exists prompt, completion_create (pred (calls w')) prompt = inl e.
Proof.
  intros adf. apply category_loop_failure.
  intros c Hc. now apply aggregated_bottom.
Qed.

End LoopMore.

Lemma loop_fails_by_service_witness :
  let adf := calculate_average_scores
               (zip_with labeled two_categories
                  ["positive"; "positive"; "positive"]) in
  let w := {| calls := 0; log := [] |} in
  let w' := snd (category_loop quota_of_one id adf (categories adf) w) in
  exists prompt,
    quota_of_one (pred (calls w')) prompt
    = inl (ExternalError "You exceeded your current quota").
Proof.
  intros adf w w'.
  apply (loop_fails_by_service quota_of_one id
           (zip_with labeled two_categories
              ["positive"; "positive"; "positive"]) w w').
  reflexivity.
Defined.

Section RunMore.

Variable completion_create : nat -> string -> result string.
Variable strip : string -> string.
Variable matrix : Type.
Variable vectorizer_transform : list string -> result matrix.
Variable model_predict : matrix -> result (list string).

Local Abbreviation click :=
  (on_click completion_create strip matrix vectorizer_transform
     model_predict).

(** What a click adds to the page: events of the loop, then at most one
    banner. *)
Lemma on_click_events (uploaded : bool) (df : loc) (σ : gmap loc frame)
    (w : world) :
  exists evs tail,
    log (click uploaded df σ w) = (log w ++ evs ++ tail)%list /\
    Forall loop_event evs /\
    (tail = [] \/ (exists msg, tail = [St_error msg]) \/
     (uploaded = false /\ evs = [] /\
      tail = [St_warning "Please upload all required files."])) /\
    calls (click uploaded df σ w)
    = calls w + length (filter is_request evs).
Proof.
  unfold on_click, try_block. destruct uploaded.
  - destruct (process_reviews _ _ _ df σ) as [e|[df' σ']].
    + exists [], [St_error ("Error: " ++ str_exn e)]. cbn.
      repeat split; eauto.
    + destruct (σ' !! df') as [rows|].
      * destruct (category_loop _ _ _ _ w) as [[e|[]] w'] eqn:E;
          apply category_loop_events in E as (evs & Hlog & Hev & Hc & _).
        -- exists evs, [St_error ("Error: " ++ str_exn e)]. cbn.
           rewrite Hlog, <- app_assoc. repeat split; eauto.
        -- exists evs, []. rewrite app_nil_r. repeat split; auto.
      * exists [], [St_error ("Error: " ++ str_exn (KeyError "df"))]. cbn.
        repeat split; eauto.
  - exists [], [St_warning "Please upload all required files."]. cbn.
    repeat split; auto.
Qed.

(** X11: a run in which the classifier returns and the service answers
    every request goes through all categories: it issues exactly one
    request per category of the aggregated table, adds four events per
    category to the page (heading, request, article, separator) and shows
    no error. *)
Theorem run_completes (df df' : loc) (σ σ' : gmap loc frame)
    (rows' : frame) (w : world) :
  process_reviews matrix vectorizer_transform model_predict df σ
    = inr (df', σ') ->
  σ' !! df' = Some rows' ->
  (forall n prompt, exists text, completion_create n prompt = inr text) ->
  let cats := categories (calculate_average_scores rows') in
  calls (click true df σ w) = calls w + length cats
  /\ exists evs,
       log (click true df σ w) = (log w ++ evs)%list /\
       Forall loop_event evs /\ length evs = 4 * length cats.
Proof.
  intros Hp Hrows Hok cats. subst cats.
  unfold on_click, try_block. rewrite Hp, Hrows.
  destruct (category_loop_success completion_create strip
              (calculate_average_scores rows')
              (categories (calculate_average_scores rows')) w Hok)
    as (w' & -> & Hcalls & Hev).
  - intros c Hc. now apply aggregated_bottom.
  - split; assumption.
Qed.

End RunMore.

Lemma run_completes_witness :
  let σ : gmap loc frame := {[ 1%positive := two_categories ]} in
  let rows' := zip_with labeled two_categories
                 ["positive"; "positive"; "positive"] in
  let w := {| calls := 0; log := [] |} in
  let cats := categories (calculate_average_scores rows') in
  let w' := on_click always_answers id (list string) transform_id
              predict_positive true 1%positive σ w in
  calls w' = calls w + length cats
  /\ exists evs,
       log w' = (log w ++ evs)%list /\
       Forall loop_event evs /\ length evs = 4 * length cats.
Proof.
  intros σ rows' w cats w'.
  apply (run_completes always_answers id (list string) transform_id
           predict_positive 1%positive 1%positive σ
           (<[ 1%positive := rows' ]> σ) rows' w).
  - now apply (process_reviews_run (list string) transform_id
                 predict_positive 1%positive σ two_categories
                 ["bright screen"; "good sound"; "fast enough"]
                 ["positive"; "positive"; "positive"]).
  - reflexivity.
  - intros n prompt. exists "An article.". reflexivity.
Defined.

(** ** The button handler *)

Section AppMore.

Variable file : Type.
Variable pyobj : Type.
Variable read_csv : file -> result frame.
Variable joblib_load : file -> result pyobj.
Variable vectorizer_attr : pyobj -> option pyobj.
Variable matrix : Type.
Variable transform : pyobj -> list string -> result matrix.
Variable predict : pyobj -> matrix -> result (list string).
Variable completion_create : nat -> string -> result string.
Variable strip : string -> string.

Local Abbreviation press :=
  (button file pyobj read_csv joblib_load vectorizer_attr matrix transform
     predict completion_create strip).

Local Abbreviation loads :=
  (load_uploads file pyobj read_csv joblib_load vectorizer_attr).

(** With all three uploads made, the handler adds events of the loop and
    then at most an error banner. *)
Lemma button_events (d m v : file) (w : world) :
  exists evs tail,
    log (press (Some d) (Some m) (Some v) w) = (log w ++ evs ++ tail)%list /\
    Forall loop_event evs /\
    (tail = [] \/ exists msg, tail = [St_error msg]) /\
    calls (press (Some d) (Some m) (Some v) w)
    = calls w + length (filter is_request evs).
Proof.
  unfold button. destruct (loads d m v) as [e|[[rows model] vec]].
  - exists [], [St_error ("Error: " ++ str_exn e)]. cbn.
    repeat split; eauto.
  - destruct (on_click_events completion_create strip matrix
                (transform vec) (predict model) true 1%positive
                {[ 1%positive := rows ]} w)
      as (evs & tail & Hlog & Hev & Htail & Hcalls).
    exists evs, tail. repeat split; auto.
    destruct Htail as [H | [H | [[=] _]]]; auto.
Qed.

(** X12: whatever is uploaded and whatever fails, the handler ends
    normally and only appends to the page: events of the loop (headings,
    requests, articles, separators), followed by at most one banner, an
    error or the warning, which is then the last thing on the page; the
    requests on the page are the requests counted. *)
Theorem button_page (d m v : option file) (w : world) :
  exists evs tail,
    log (press d m v w) = (log w ++ evs ++ tail)%list /\
    Forall loop_event evs /\
    (tail = [] \/ (exists msg, tail = [St_error msg]) \/
     (evs = [] /\ tail = [St_warning "Please upload all required files."]))
    /\ calls (press d m v w) = calls w + length (filter is_request evs).
Proof.
  destruct d as [d|], m as [m|], v as [v|];
    try (exists [], [St_warning "Please upload all required files."];
         cbn; repeat split; auto; fail).
  destruct (button_events d m v w) as (evs & tail & Hlog & Hev & Ht & Hc).
  exists evs, tail. repeat split; auto. tauto.
Qed.

(** X13: the warning is what the handler does exactly when an upload is
    missing: then it adds the warning and nothing else, without loading,
    classifying or requesting anything; with all three uploads made, the
    page never ends up as the warning alone. *)
Theorem warning_iff_upload_missing (d m v : option file) (w : world) :
  press d m v w = emit (St_warning "Please upload all required files.") w
  <-> d = None \/ m = None \/ v = None.
Proof.
  split.
  - destruct d as [d|], m as [m|], v as [v|]; auto.
    intros H. exfalso.
    destruct (button_events d m v w) as (evs & tail & Hlog & Hev & Ht & _).
    rewrite H in Hlog. cbn in Hlog. apply app_inv_head in Hlog.
    destruct Ht as [-> | [msg ->]].
    + rewrite app_nil_r in Hlog. subst evs.
      inversion Hev as [|? ? Hw _]. exact Hw.
    + destruct evs as [|x [|y evs]]; discriminate Hlog.
  - intros [-> | [-> | ->]]; [ | destruct d | destruct d, m ]; reflexivity.
Qed.

(** X14: a failure in front of the loop ends the run before anything is
    requested: when reading the table raises, or loading the model or the
    vectorizer file raises, or the vectorizer or the model raises on the
    reviews, the handler adds the error banner with that exception to the
    page and nothing else, and issues no request. *)
Theorem failure_before_requests (d m v : file) (w : world) (e : exn) :
  read_csv d = inl e
  \/ (exists rows, read_csv d = inr rows /\ joblib_load m = inl e)
  \/ (exists rows model,
        read_csv d = inr rows /\ joblib_load m = inr model /\
        vectorizer_attr model = None /\ joblib_load v = inl e)
  \/ (exists rows model vec,
        loads d m v = inr (rows, model, vec) /\
        (transform vec (map reviews_text rows) = inl e \/
         exists X, transform vec (map reviews_text rows) = inr X /\
                   predict model X = inl e)) ->
  press (Some d) (Some m) (Some v) w
  = emit (St_error ("Error: " ++ str_exn e)) w.
Proof.
  unfold button.
  intros [H | [(rows & H1 & H2) | [(rows & model & H1 & H2 & H3 & H4) |
                                   (rows & model & vec & H1 & H2)]]].
  - unfold load_uploads, load_data. now rewrite H.
  - unfold load_uploads, load_data, load_model. rewrite H1. cbn [bind].
    now rewrite H2.
  - unfold load_uploads, load_data, load_model, load_vectorizer.
    rewrite H1. cbn [bind]. rewrite H2. cbn [bind]. rewrite H3.
    now rewrite H4.
  - rewrite H1. unfold on_click, try_block, process_reviews, getitem.
    rewrite lookup_singleton_eq. cbn [bind ret].
    destruct H2 as [H2 | (X & H2 & H3)]; rewrite H2; cbn [bind];
      [ | rewrite H3 ]; reflexivity.
Qed.

(** X15: a model that carries its vectorizer makes the uploaded vectorizer
    file irrelevant: [load_vectorizer] does not read it, and the handler
    does the same whatever file is uploaded in its place (an upload is
    still required: without one the handler only warns). *)
Theorem embedded_vectorizer_upload_unread (d m v1 v2 : file)
    (model vec : pyobj) (w : world) :
  joblib_load m = inr model ->
  vectorizer_attr model = Some vec ->
  press (Some d) (Some m) (Some v1) w = press (Some d) (Some m) (Some v2) w
  /\ press (Some d) (Some m) None w
     = emit (St_warning "Please upload all required files.") w.
Proof.
  intros Hm Hv. split; [ | reflexivity ].
  unfold button, load_uploads, load_data, load_model, load_vectorizer.
  destruct (read_csv d) as [e|rows]; cbn [bind]; [ reflexivity | ].
  rewrite Hm. cbn [bind]. now rewrite Hv.
Qed.

End AppMore.

Lemma failure_before_requests_witness :
  button string string csv_of pickle_of embedded_vectorizer (list string)
    transform_with predict_with always_answers id
    (Some "reviews.csv") (Some "broken.pkl") (Some "tfidf.pkl")
    {| calls := 0; log := [] |}
  = emit (St_error ("Error: " ++ str_exn (ExternalError "invalid load key")))
      {| calls := 0; log := [] |}.
Proof.
  apply (failure_before_requests string string csv_of pickle_of
           embedded_vectorizer (list string) transform_with predict_with
           always_answers id "reviews.csv" "broken.pkl" "tfidf.pkl").
  right. left. exists two_categories. split; reflexivity.
Defined.

Lemma embedded_vectorizer_upload_unread_witness :
  let press :=
    button string string csv_of pickle_of embedded_vectorizer (list string)
      transform_with predict_with always_answers id in
  let w := {| calls := 0; log := [] |} in
  press (Some "reviews.csv") (Some "embedded.pkl") (Some "tfidf.pkl") w
  = press (Some "reviews.csv") (Some "embedded.pkl") (Some "broken.pkl") w
  /\ press (Some "reviews.csv") (Some "embedded.pkl") None w
     = emit (St_warning "Please upload all required files.") w.
Proof.
  intros press w.
  apply (embedded_vectorizer_upload_unread string string csv_of pickle_of
           embedded_vectorizer (list string) transform_with predict_with
           always_answers id "reviews.csv" "embedded.pkl" "tfidf.pkl"
           "broken.pkl" "embedded.pkl" "its own vectorizer" w);
    reflexivity.
Defined.

(** ** The classifier and labels the table already has *)

Lemma same_review_texts (rows1 rows2 : frame) :
  Forall2 same_review rows1 rows2 ->
  map reviews_text rows1 = map reviews_text rows2.
Proof.
  induction 1 as [|r1 r2 l1 l2 (Ht & _ & _) _ IH]; simpl; congruence.
Qed.

Lemma same_review_labeled (rows1 rows2 : frame) (labels : list string) :
  Forall2 same_review rows1 rows2 ->
  zip_with labeled rows1 labels = zip_with labeled rows2 labels.
Proof.
  intros H. revert labels.
  induction H as [|r1 r2 l1 l2 (Ht & Hn & Hc) _ IH]; intros [|l labels];
    simpl; auto.
  rewrite IH. unfold labeled. now rewrite Ht, Hn, Hc.
Qed.

Section ClassifierOverwrites.

Variable matrix : Type.
Variable vectorizer_transform : list string -> result matrix.
Variable model_predict : matrix -> result (list string).

Local Abbreviation process :=
  (process_reviews matrix vectorizer_transform model_predict).

(** X16: labels and scores the uploaded table already has are overwritten
    and play no part: when [process_reviews] returns on a table, it
    returns on every table with the same reviews (text, product and
    category, row by row) and leaves the same table there. *)
Theorem process_reviews_overwrites (df df' : loc) (σ1 σ2 σ1' : gmap loc frame)
    (rows1 rows2 : frame) :
  σ1 !! df = Some rows1 ->
  σ2 !! df = Some rows2 ->
  Forall2 same_review rows1 rows2 ->
  process df σ1 = inr (df', σ1') ->
  exists σ2',
    process df σ2 = inr (df', σ2') /\ σ2' !! df' = σ1' !! df'.
Proof.
  intros H1 H2 Hsame Hp.
  destruct (process_reviews_inv _ _ _ _ _ _ _ Hp)
    as (rows & X & labels & Hdf & HX & HL & Hlen).
  rewrite H1 in Hdf. injection Hdf as <-.
  rewrite (process_reviews_run _ _ _ _ _ rows1 X labels) in Hp
    by assumption.
  injection Hp as <- <-.
  exists (<[df := zip_with labeled rows2 labels]> σ2). split.
  - apply process_reviews_run with X; auto.
    + now rewrite <- (same_review_texts _ _ Hsame).
    + now rewrite <- (Forall2_length Hsame).
  - rewrite !lookup_insert_eq. f_equal. symmetry.
    now apply same_review_labeled.
Qed.

End ClassifierOverwrites.

Lemma process_reviews_overwrites_witness :
  exists σ2',
    process_reviews (list string) transform_id predict_positive 1%positive
      {[ 1%positive := preclassified_review ]} = inr (1%positive, σ2') /\
    σ2' !! 1%positive
    = (<[ 1%positive := zip_with labeled one_review ["positive"] ]>
         {[ 1%positive := one_review ]} : gmap loc frame) !! 1%positive.
Proof.
  apply (process_reviews_overwrites (list string) transform_id
           predict_positive 1%positive 1%positive
           {[ 1%positive := one_review ]}
           {[ 1%positive := preclassified_review ]}
           (<[ 1%positive := zip_with labeled one_review ["positive"] ]>
              {[ 1%positive := one_review ]})
           one_review preclassified_review).
  - reflexivity.
  - reflexivity.
  - repeat constructor.
  - now apply (process_reviews_run (list string) transform_id
                 predict_positive 1%positive _ one_review
                 ["it is a tablet"] ["positive"]).
Defined.
